(** * Polymarket chat front-end: relevance scorer, formatter, controller, key proxy

    A shallow embedding of the browser script (the chat front-end) and of
    [api/get-api-key.js], with the properties the specification states about
    them.

    Modelling conventions.
    - A JavaScript number is an IEEE 754 binary64 value: the kernel's primitive
      [float].  Its operations are specified by the Standard Library's
      [FloatAxioms] against [SpecFloat].
    - A JavaScript string is a [string]; its code units are modelled by [ascii]
      characters, and [toLowerCase] is the ASCII fragment of the case mapping.
    - A field that may be absent ([volume24h], [title], ...) carries the
      absence explicitly; an exception is a [Throw] result.
    - The relevance score is a sum of the integers 10, 5, 15, 3 and 2; it is
      kept in [Z] (a double represents such sums exactly far beyond the length
      of any query string). *)

From Stdlib Require Import ZArith List String Ascii Bool Lia.
From Stdlib Require Import Floats DecimalString Sorting.Sorted Sorting.Permutation.
Import ListNotations.

#[local] Set Warnings "-inexact-float".
#[local] Open Scope string_scope.

(** ** JavaScript values and built-ins used by the sources *)
Module JS.

(** The outcome of code that may throw. *)
Inductive error : Set := TypeError.

Inductive result (A : Type) : Type :=
| Ok (a : A)
| Throw (e : error).

Arguments Ok {A} a.
Arguments Throw {A} e.

Lemma Ok_inj {A : Type} (a b : A) : Ok a = Ok b -> a = b.
Proof.
intro H. change (match Ok a with Ok x => x | Throw _ => a end = b).
rewrite H. reflexivity.
Qed.

Definition bind {A B : Type} (r : result A) (k : A -> result B) : result B :=
match r with
| Ok a => k a
| Throw e => Throw e
end.

(** *** Strings *)

(** [c.toLowerCase()] on one code unit: 'A'..'Z' move to 'a'..'z'. *)
Definition lower_char (c : ascii) : ascii :=
let n := nat_of_ascii c in
if (65 <=? n)%nat && (n <=? 90)%nat then ascii_of_nat (n + 32) else c.

(** [s.toLowerCase()]. *)
Fixpoint toLowerCase (s : string) : string :=
match s with
| EmptyString => EmptyString
| String c s' => String (lower_char c) (toLowerCase s')
end.

(** [s.includes(sub)]: [sub] occurs in [s] at some position. *)
Fixpoint includes (s sub : string) : bool :=
if String.prefix sub s then true
else match s with
     | EmptyString => false
     | String _ s' => includes s' sub
     end.

(** [s.split(' ')]: the pieces between single spaces; never empty. *)
Fixpoint split_space (s : string) : list string :=
match s with
| EmptyString => [EmptyString]
| String c s' =>
    if Ascii.eqb c " "%char then EmptyString :: split_space s'
    else match split_space s' with
         | w :: ws => String c w :: ws
         | [] => [String c EmptyString]
         end
end.

(** White space removed by [trim] (the ASCII part of it). *)
Definition is_space (c : ascii) : bool :=
let n := nat_of_ascii c in
(n =? 32)%nat || ((9 <=? n)%nat && (n <=? 13)%nat).

Fixpoint trimStart (s : string) : string :=
match s with
| EmptyString => EmptyString
| String c s' => if is_space c then trimStart s' else s
end.

Fixpoint trimEnd (s : string) : string :=
match s with
| EmptyString => EmptyString
| String c s' =>
    match trimEnd s' with
    | EmptyString => if is_space c then EmptyString else String c EmptyString
    | t => String c t
    end
end.

(** [s.trim()]. *)
Definition trim (s : string) : string := trimEnd (trimStart s).

(** *** Numbers and nullable numeric fields *)

(** A field read from the market snapshot where a number is expected:
    absent, [null], or a number. *)
Inductive value : Set :=
| Undefined
| Null
| Number (x : float).

(** [ToNumber]. *)
Definition toNumber (v : value) : float :=
match v with
| Undefined => nan
| Null => 0%float
| Number x => x
end.

(** [ToBoolean]: a number is truthy unless it is [0], [-0] or [NaN]. *)
Definition truthy (v : value) : bool :=
match v with
| Undefined | Null => false
| Number x => negb (x =? 0)%float && (x =? x)%float
end.

(** [v > c] against a number: both operands go through [ToNumber]. *)
Definition gt (v : value) (c : float) : bool := (c <? toNumber v)%float.

(** [v === c] against a number: no coercion. *)
Definition strictEq (v : value) (c : float) : bool :=
match v with
| Number x => (x =? c)%float
| _ => false
end.

(** [v || 0], used where a number is wanted. *)
Definition orZero (v : value) : float :=
if truthy v then toNumber v else 0%float.

(** *** Array.prototype.sort

    [after a b] says that the comparison function returned a positive number
    on [(a, b)]: [a] has to come after [b].  The sort is stable (ECMAScript
    2019): an element moves behind another one only when [after] says so. *)
Section Sort.
Context {A : Type}.
Variable after : A -> A -> bool.

Fixpoint insert (x : A) (l : list A) : list A :=
match l with
| [] => [x]
| y :: l' => if after x y then y :: insert x l' else x :: l
end.

Definition sort (l : list A) : list A := fold_right insert [] l.

End Sort.

(** *** Number.prototype.toFixed *)

(** The decimal digits of a natural number, ["0"] for zero. *)
Definition decimal (n : Z) : string :=
NilZero.string_of_uint (N.to_uint (Z.to_N n)).

Fixpoint zeros (k : nat) : string :=
match k with
| O => EmptyString
| S k' => String "0"%char (zeros k')
end.

(** The integer [n] for which [n / 10^f] is nearest to [m * 2^e], the larger
    one of two. *)
Definition nearest (m : positive) (e : Z) (f : nat) : Z :=
let scaled := (Zpos m * 10 ^ Z.of_nat f)%Z in
match e with
| Zneg p => ((2 * scaled + 2 ^ Zpos p) / (2 * 2 ^ Zpos p))%Z
| _ => (scaled * 2 ^ e)%Z
end.

(** The digits of [n] with a point before the last [f] of them. *)
Definition pointed (n : Z) (f : nat) : string :=
let m := decimal n in
match f with
| O => m
| S _ =>
    let k := String.length m in
    let m := if (k <=? f)%nat then zeros (f + 1 - k) ++ m else m in
    let k := String.length m in
    substring 0 (k - f) m ++ "." ++ substring (k - f) f m
end.

Section ToFixed.

(** [Number::toString] is needed by [toFixed] for finite values from [1e21]
    on only; it is left as a parameter. *)
Variable numberToString : float -> string.

(** [x.toFixed(f)] for [0 <= f <= 100]. *)
Definition toFixed (x : float) (f : nat) : string :=
match Prim2SF x with
| S754_nan => "NaN"
| S754_infinity s => if s then "-Infinity" else "Infinity"
| S754_zero _ => pointed 0 f
| S754_finite s m e =>
    (if s then "-" else "") ++
    (if (1e21 <=? abs x)%float then numberToString (abs x)
     else pointed (nearest m e f) f)
end.

End ToFixed.

End JS.

(** ** Facts about binary64 arithmetic

    What the scorer's comparison function needs: the sign of a difference of
    two positive doubles is the sign of their exact difference. *)
Module FloatFacts.
#[local] Open Scope Z_scope.

(** The exponent range of binary64. *)
Definition emin64 : Z := -1074.

Lemma digits2_pos_bounds (p : positive) :
  2 ^ (Zpos (digits2_pos p) - 1) <= Zpos p < 2 ^ Zpos (digits2_pos p).
Proof.
induction p as [p IH | p IH | ]; cbn [digits2_pos].
- rewrite Pos2Z.inj_succ, Z.pow_succ_r by lia.
  replace (Z.succ (Zpos (digits2_pos p)) - 1) with (Z.succ (Zpos (digits2_pos p) - 1)) by lia.
  rewrite Z.pow_succ_r by lia. lia.
- rewrite Pos2Z.inj_succ, Z.pow_succ_r by lia.
  replace (Z.succ (Zpos (digits2_pos p)) - 1) with (Z.succ (Zpos (digits2_pos p) - 1)) by lia.
  rewrite Z.pow_succ_r by lia. lia.
- cbn. lia.
Qed.

Lemma iter_xO (d m : positive) : Zpos (Pos.iter xO m d) = Zpos m * 2 ^ Zpos d.
Proof.
revert m. induction d as [ | d IH] using Pos.peano_ind; intro m.
- cbn. lia.
- rewrite Pos.iter_succ, Pos2Z.inj_succ, Z.pow_succ_r by lia.
  rewrite Pos2Z.inj_xO, IH. lia.
Qed.

Lemma shl_align_spec (m : positive) (e e' : Z) :
  e' <= e ->
  Zpos (fst (shl_align m e e')) = Zpos m * 2 ^ (e - e').
Proof.
intro H. unfold shl_align.
destruct (e' - e) as [ | d | d ] eqn:E; try lia.
- replace (e - e') with 0 by lia. cbn [fst]. lia.
- cbn [fst]. rewrite iter_xO. f_equal. f_equal. lia.
Qed.

Lemma shl_align_exp (m : positive) (e e' : Z) :
  snd (shl_align m e e') = Z.min e e'.
Proof.
unfold shl_align. destruct (e' - e) eqn:E; cbn [snd]; lia.
Qed.


(** *** Rounding keeps a positive mantissa positive *)

Lemma shr_1_m (mrs : shr_record) :
  0 <= shr_m mrs -> shr_m (shr_1 mrs) = shr_m mrs / 2.
Proof.
destruct mrs as [m r s]. cbn [shr_m]. intro H.
destruct m as [ | [p | p | ] | p ]; cbn [shr_1 shr_m]; try lia.
- reflexivity.
- rewrite Pos2Z.inj_xI. apply Z.div_unique with (r := 1); lia.
- rewrite Pos2Z.inj_xO. apply Z.div_unique with (r := 0); lia.
- reflexivity.
Qed.

Lemma iter_shr_1_m (p : positive) (mrs : shr_record) :
  0 <= shr_m mrs ->
  shr_m (iter_pos shr_1 p mrs) = shr_m mrs / 2 ^ Zpos p.
Proof.
revert mrs. induction p as [p IH | p IH | ]; intros mrs H; cbn [iter_pos].
- assert (H1 : 0 <= shr_m (shr_1 mrs)) by (rewrite shr_1_m by lia; apply Z.div_pos; lia).
  assert (H2 : 0 <= shr_m (iter_pos shr_1 p (shr_1 mrs)))
    by (rewrite IH by lia; apply Z.div_pos; lia).
  rewrite IH, IH, shr_1_m by lia.
  rewrite !Z.div_div by lia. f_equal.
  rewrite Pos2Z.inj_xI.
  replace (2 * Zpos p + 1) with (1 + Zpos p + Zpos p) by lia.
  rewrite !Z.pow_add_r by lia. change (2 ^ 1) with 2. ring.
- assert (H2 : 0 <= shr_m (iter_pos shr_1 p mrs))
    by (rewrite IH by lia; apply Z.div_pos; lia).
  rewrite IH, IH by lia.
  rewrite !Z.div_div by lia. f_equal.
  rewrite <- (Pos.add_diag p), (Pos2Z.inj_add p p), Z.pow_add_r by lia. reflexivity.
- rewrite shr_1_m by lia. reflexivity.
Qed.

Lemma shr_record_of_loc_m (m : Z) (l : location) :
  shr_m (shr_record_of_loc m l) = m.
Proof. destruct l as [ | [ | | ] ]; reflexivity. Qed.

Lemma shr_fexp_pos (m e : Z) (l : location) :
  0 < m -> emin64 <= e ->
  0 < shr_m (fst (shr_fexp prec emax m e l)) /\
  emin64 <= snd (shr_fexp prec emax m e l).
Proof.
intros Hm He. unfold shr_fexp, shr.
destruct m as [ | p | p ]; try lia. cbn [Zdigits2].
pose proof (digits2_pos_bounds p) as Hd.
set (d := Zpos (digits2_pos p)) in *.
unfold fexp, SpecFloat.emin, prec, emax, emin64 in *.
destruct (Z.max (d + e - 53) (3 - 1024 - 53) - e) as [ | q | q ] eqn:E; cbn [fst snd];
  rewrite ?shr_record_of_loc_m; try lia.
rewrite iter_shr_1_m by (rewrite shr_record_of_loc_m; lia).
rewrite shr_record_of_loc_m.
assert (Hq : Zpos q = d - 53) by lia.
split; [ | lia ].
apply Z.lt_le_trans with (2 ^ 52); [ reflexivity | ].
apply Z.div_le_lower_bound; [ apply Z.pow_pos_nonneg; lia | ].
rewrite Hq, <- Z.pow_add_r by lia.
replace (d - 53 + 52) with (d - 1) by lia. lia.
Qed.

Lemma round_nearest_even_pos (m : Z) (l : location) :
  0 < m -> 0 < round_nearest_even m l.
Proof.
intro H. unfold round_nearest_even.
destruct l as [ | [ | | ] ]; try lia. destruct (Z.even m); lia.
Qed.

(** [0 < x] on specification floats. *)
Definition positive_sf (x : spec_float) : bool := SFltb (S754_zero false) x.

Lemma binary_round_aux_pos (m e : Z) (l : location) :
  0 < m -> emin64 <= e ->
  positive_sf (binary_round_aux prec emax false m e l) = true.
Proof.
intros Hm He. unfold binary_round_aux.
pose proof (shr_fexp_pos m e l Hm He) as [H1 H2].
destruct (shr_fexp prec emax m e l) as [mrs' e']. cbn [fst snd] in H1, H2.
pose proof (shr_fexp_pos _ e' loc_Exact
              (round_nearest_even_pos _ (loc_of_shr_record mrs') H1) H2) as [H3 H4].
destruct (shr_fexp prec emax (round_nearest_even _ _) e' loc_Exact) as [mrs'' e''].
cbn [fst snd] in H3, H4.
destruct (shr_m mrs'') as [ | p | p ]; try lia.
destruct (e'' <=? emax - prec); reflexivity.
Qed.

Lemma binary_round_pos (m : positive) (e : Z) :
  emin64 <= e ->
  positive_sf (binary_round prec emax false m e) = true.
Proof.
intro He. unfold binary_round.
pose proof (shl_align_exp m e (fexp prec emax (Zpos (digits2_pos m) + e))) as Hs.
destruct (shl_align m e _) as [mz ez]. cbn [snd] in Hs.
apply binary_round_aux_pos; [ lia | ].
unfold fexp, SpecFloat.emin, prec, emax, emin64 in *. lia.
Qed.

Lemma binary_round_neg (m : positive) (e : Z) :
  positive_sf (binary_round prec emax true m e) = false.
Proof.
unfold binary_round. destruct (shl_align m e _) as [mz ez].
unfold binary_round_aux.
destruct (shr_fexp prec emax (Zpos mz) ez loc_Exact) as [mrs' e'].
destruct (shr_fexp prec emax _ e' loc_Exact) as [mrs'' e''].
destruct (shr_m mrs'') as [ | p | p ]; try reflexivity.
destruct (e'' <=? emax - prec); reflexivity.
Qed.


(** *** Order of positive numbers through an integer key *)

(** A positive double, in units of the smallest subnormal; infinity above all. *)
Definition key (x : spec_float) : Z :=
match x with
| S754_finite false m e => Zpos m * 2 ^ (e - emin64)
| S754_infinity false => 2 ^ 2098
| _ => 0
end.

Lemma valid_finite (s : bool) (m : positive) (e : Z) :
  valid_binary (S754_finite s m e) = true ->
  emin64 <= e <= 971 /\
  Zpos (digits2_pos m) <= 53 /\
  (emin64 < e -> Zpos (digits2_pos m) = 53).
Proof.
cbn [SpecFloat.valid_binary]. unfold bounded, canonical_mantissa, fexp, SpecFloat.emin.
unfold prec, emax, emin64. intro H.
apply andb_true_iff in H. destruct H as [H1 H2].
apply Z.eqb_eq in H1. apply Z.leb_le in H2. lia.
Qed.

Lemma key_finite_bound (m : positive) (e : Z) :
  valid_binary (S754_finite false m e) = true ->
  0 < key (S754_finite false m e) < 2 ^ 2098.
Proof.
intro Hv. apply valid_finite in Hv. destruct Hv as (He & Hd & _).
pose proof (digits2_pos_bounds m) as [_ Hm]. cbn [key]. unfold emin64 in *.
assert (H53 : Zpos m < 2 ^ 53).
{ apply Z.lt_le_trans with (1 := Hm). apply Z.pow_le_mono_r; lia. }
assert (Hp : 0 < 2 ^ (e - -1074)) by (apply Z.pow_pos_nonneg; lia).
split; [ lia | ].
apply Z.lt_le_trans with (2 ^ 53 * 2 ^ (e - -1074)).
- apply Z.mul_lt_mono_pos_r; lia.
- rewrite <- Z.pow_add_r by lia. apply Z.pow_le_mono_r; lia.
Qed.

Lemma key_exponent_lt (m1 m2 : positive) (e1 e2 : Z) :
  valid_binary (S754_finite false m1 e1) = true ->
  valid_binary (S754_finite false m2 e2) = true ->
  e1 < e2 ->
  key (S754_finite false m1 e1) < key (S754_finite false m2 e2).
Proof.
intros H1 H2 Hlt.
apply valid_finite in H1. destruct H1 as (He1 & Hd1 & _).
apply valid_finite in H2. destruct H2 as (He2 & _ & Hn2).
pose proof (digits2_pos_bounds m1) as [_ Hm1].
pose proof (digits2_pos_bounds m2) as [Hm2 _].
rewrite Hn2 in Hm2 by lia. cbn [key]. unfold emin64 in *.
assert (H53 : Zpos m1 < 2 ^ 53).
{ apply Z.lt_le_trans with (1 := Hm1). apply Z.pow_le_mono_r; lia. }
assert (Hp : 0 < 2 ^ (e1 - -1074)) by (apply Z.pow_pos_nonneg; lia).
apply Z.lt_le_trans with (2 ^ 53 * 2 ^ (e1 - -1074)).
- apply Z.mul_lt_mono_pos_r; lia.
- apply Z.le_trans with (2 ^ (53 - 1) * 2 ^ (e2 - -1074)).
  + rewrite <- !Z.pow_add_r by lia. apply Z.pow_le_mono_r; lia.
  + apply Z.mul_le_mono_nonneg_r; [ apply Z.pow_nonneg; lia | lia ].
Qed.

Lemma positive_sf_cases (x : spec_float) :
  positive_sf x = true ->
  (exists m e, x = S754_finite false m e) \/ x = S754_infinity false.
Proof.
destruct x as [s | [ | ] | | [ | ] m e]; cbn; try discriminate; eauto.
Qed.

(** [x < y] on valid positive numbers is the order of their keys. *)
Lemma SFltb_key (x y : spec_float) :
  valid_binary x = true -> valid_binary y = true ->
  positive_sf x = true -> positive_sf y = true ->
  SFltb x y = (key x <? key y).
Proof.
intros Vx Vy Px Py.
destruct (positive_sf_cases x Px) as [(mx & ex & ->) | ->];
  destruct (positive_sf_cases y Py) as [(my & ey & ->) | ->].
- unfold SFltb. cbn [SFcompare].
  destruct (Z.compare_spec ex ey) as [E | E | E].
  + subst ey. cbn [key]. change (Pos.compare_cont Eq mx my) with (Pos.compare mx my).
    assert (Hp : 0 < 2 ^ (ex - emin64)).
    { apply valid_finite in Vx. apply Z.pow_pos_nonneg; lia. }
    destruct (Pos.compare_spec mx my) as [C | C | C]; symmetry.
    * subst. apply Z.ltb_irrefl.
    * apply Z.ltb_lt. apply Z.mul_lt_mono_pos_r; lia.
    * apply Z.ltb_ge. apply Z.mul_le_mono_nonneg_r; lia.
  + symmetry. apply Z.ltb_lt. now apply key_exponent_lt.
  + symmetry. apply Z.ltb_ge. apply Z.lt_le_incl. now apply key_exponent_lt.
- pose proof (key_finite_bound mx ex Vx). symmetry. apply Z.ltb_lt.
  cbn [key] in *. lia.
- pose proof (key_finite_bound my ey Vy). symmetry. apply Z.ltb_ge.
  cbn [key] in *. lia.
- reflexivity.
Qed.

(** The sign of a difference of valid positive numbers: [0 < y - x] exactly
    when [x] is below [y]; the rounding of the difference never reaches zero. *)
Lemma SFsub_key (x y : spec_float) :
  valid_binary x = true -> valid_binary y = true ->
  positive_sf x = true -> positive_sf y = true ->
  positive_sf (SFsub prec emax y x) = (key x <? key y).
Proof.
intros Vx Vy Px Py.
destruct (positive_sf_cases x Px) as [(mx & ex & ->) | ->];
  destruct (positive_sf_cases y Py) as [(my & ey & ->) | ->].
- cbn [SFsub cond_Zopp].
  pose proof (valid_finite _ _ _ Vx) as (Hex & _).
  pose proof (valid_finite _ _ _ Vy) as (Hey & _).
  pose proof (shl_align_spec my ey (Z.min ey ex) ltac:(lia)) as Hy.
  pose proof (shl_align_spec mx ex (Z.min ey ex) ltac:(lia)) as Hx.
  set (ay := Zpos (fst (shl_align my ey (Z.min ey ex)))) in *.
  set (ax := Zpos (fst (shl_align mx ex (Z.min ey ex)))) in *.
  assert (Hk : key (S754_finite false my ey) - key (S754_finite false mx ex)
               = (ay - ax) * 2 ^ (Z.min ey ex - emin64)).
  { cbn [key]. rewrite Hy, Hx, Z.mul_sub_distr_r, <- !Z.mul_assoc, <- !Z.pow_add_r by lia.
    f_equal; f_equal; f_equal; lia. }
  assert (Hp : 0 < 2 ^ (Z.min ey ex - emin64)) by (apply Z.pow_pos_nonneg; lia).
  unfold binary_normalize.
  destruct (ay - ax) as [ | d | d ] eqn:D.
  + symmetry. apply Z.ltb_ge. lia.
  + rewrite binary_round_pos by lia. symmetry. apply Z.ltb_lt. nia.
  + rewrite binary_round_neg. symmetry. apply Z.ltb_ge. nia.
- pose proof (key_finite_bound mx ex Vx). symmetry. apply Z.ltb_lt.
  cbn [key] in *. lia.
- pose proof (key_finite_bound my ey Vy). symmetry. apply Z.ltb_ge.
  cbn [key] in *. lia.
- reflexivity.
Qed.

(** *** The order of doubles *)

(** Case analysis on the comparisons of exponents and mantissas. *)
Ltac split_compare :=
  repeat match goal with
         | H : context [Z.compare ?a ?b] |- _ => destruct (Z.compare_spec a b)
         | |- context [Z.compare ?a ?b] => destruct (Z.compare_spec a b)
         | H : context [Pos.compare_cont Eq ?a ?b] |- _ =>
             change (Pos.compare_cont Eq a b) with (Pos.compare a b) in *;
             destruct (Pos.compare_spec a b)
         | |- context [Pos.compare_cont Eq ?a ?b] =>
             change (Pos.compare_cont Eq a b) with (Pos.compare a b) in *;
             destruct (Pos.compare_spec a b)
         end;
  cbn in *; subst; try reflexivity; try discriminate; try lia.

Lemma SFltb_trans (x y z : spec_float) :
  SFltb x y = true -> SFltb y z = true -> SFltb x z = true.
Proof.
unfold SFltb.
destruct x as [ [ | ] | [ | ] | | [ | ] mx ex ], y as [ [ | ] | [ | ] | | [ | ] my ey ],
  z as [ [ | ] | [ | ] | | [ | ] mz ez ]; cbn [SFcompare];
  try reflexivity; try discriminate; intros H1 H2; split_compare.
Qed.

Lemma SFltb_asym (x y : spec_float) : SFltb x y = true -> SFltb y x = false.
Proof.
unfold SFltb.
destruct x as [ [ | ] | [ | ] | | [ | ] mx ex ], y as [ [ | ] | [ | ] | | [ | ] my ey ];
  cbn [SFcompare]; try reflexivity; try discriminate; intros H1; split_compare.
Qed.

Lemma SFleb_not_ltb (x y : spec_float) : SFleb x y = true -> SFltb y x = false.
Proof.
unfold SFltb, SFleb.
destruct x as [ [ | ] | [ | ] | | [ | ] mx ex ], y as [ [ | ] | [ | ] | | [ | ] my ey ];
  cbn [SFcompare]; try reflexivity; try discriminate; intros H1; split_compare.
Qed.

Lemma SFltb_not_eqb (x y : spec_float) :
  SFltb x y = true -> SFeqb y x = false /\ SFeqb y y = true.
Proof.
unfold SFltb, SFeqb.
destruct x as [ [ | ] | [ | ] | | [ | ] mx ex ], y as [ [ | ] | [ | ] | | [ | ] my ey ];
  cbn [SFcompare]; try discriminate; intros H1; split; split_compare.
Qed.

Lemma ltb_trans (x y z : float) :
  (x <? y)%float = true -> (y <? z)%float = true -> (x <? z)%float = true.
Proof. rewrite !ltb_spec. apply SFltb_trans. Qed.

Lemma ltb_asym (x y : float) : (x <? y)%float = true -> (y <? x)%float = false.
Proof. rewrite !ltb_spec. apply SFltb_asym. Qed.

Lemma leb_not_ltb (x y : float) : (x <=? y)%float = true -> (y <? x)%float = false.
Proof. rewrite leb_spec, ltb_spec. apply SFleb_not_ltb. Qed.

(** A number above another one is not [NaN] and differs from it. *)
Lemma ltb_not_eqb (x y : float) :
  (x <? y)%float = true -> (y =? x)%float = false /\ (y =? y)%float = true.
Proof. rewrite ltb_spec, !eqb_spec. apply SFltb_not_eqb. Qed.

(** *** The same on primitive floats *)

Definition fkey (x : float) : Z := key (Prim2SF x).

Lemma ltb_0_positive (x : float) : (0 <? x)%float = positive_sf (Prim2SF x).
Proof. rewrite ltb_spec. reflexivity. Qed.

Lemma ltb_fkey (x y : float) :
  (0 <? x)%float = true -> (0 <? y)%float = true ->
  (x <? y)%float = (fkey x <? fkey y).
Proof.
intros Hx Hy. rewrite ltb_0_positive in Hx, Hy. rewrite ltb_spec.
apply SFltb_key; auto using Prim2SF_valid.
Qed.

Lemma sub_sign_fkey (x y : float) :
  (0 <? x)%float = true -> (0 <? y)%float = true ->
  (0 <? y - x)%float = (fkey x <? fkey y).
Proof.
intros Hx Hy. rewrite ltb_0_positive in Hx, Hy.
rewrite ltb_0_positive, sub_spec.
apply SFsub_key; auto using Prim2SF_valid.
Qed.

(** *** The decimal rounding of [toFixed] *)

(** [JS.nearest m e f] is the integer nearest to [m * 2^e * 10^f], the larger
    one when two are equally near. *)
Lemma nearest_spec (m : positive) (e : Z) (f : nat) :
  (0 <= e -> JS.nearest m e f = Zpos m * 10 ^ Z.of_nat f * 2 ^ e) /\
  (e < 0 ->
   2 * (Zpos m * 10 ^ Z.of_nat f) - 2 ^ (- e)
   < 2 * 2 ^ (- e) * JS.nearest m e f
   <= 2 * (Zpos m * 10 ^ Z.of_nat f) + 2 ^ (- e)).
Proof.
unfold JS.nearest. destruct e as [ | p | p ]; split; intro H; try lia; try reflexivity.
change (- Zneg p) with (Zpos p).
set (scaled := Zpos m * 10 ^ Z.of_nat f). set (unit := 2 ^ Zpos p).
assert (Hunit : 0 < unit) by (apply Z.pow_pos_nonneg; lia).
pose proof (Z.div_mod (2 * scaled + unit) (2 * unit) ltac:(lia)) as Hdm.
pose proof (Z.mod_pos_bound (2 * scaled + unit) (2 * unit) ltac:(lia)) as Hr.
lia.
Qed.

(** [JS.pointed] writes exactly [f] decimals behind at least one digit. *)

Lemma length_append (a b : string) :
  String.length (a ++ b) = (String.length a + String.length b)%nat.
Proof. induction a as [ | c a IH]; cbn; [ reflexivity | now rewrite IH ]. Qed.

Lemma zeros_length (k : nat) : String.length (JS.zeros k) = k.
Proof. induction k as [ | k IH]; cbn; [ reflexivity | now rewrite IH ]. Qed.

Lemma substring_length (s : string) (n m : nat) :
  (n + m <= String.length s)%nat -> String.length (substring n m s) = m.
Proof.
revert n m. induction s as [ | c s IH]; intros [ | n] [ | m] H; cbn in *;
  try reflexivity; try lia.
- rewrite (IH 0%nat m); [ reflexivity | lia ].
- apply (IH n 0%nat). lia.
- apply (IH n (S m)). lia.
Qed.

Lemma pointed_decimals (n : Z) (f : nat) :
  exists a b, JS.pointed n (S f) = a ++ "." ++ b /\
              String.length b = S f /\ (1 <= String.length a)%nat.
Proof.
unfold JS.pointed.
set (m := if (String.length (JS.decimal n) <=? S f)%nat
          then JS.zeros (S f + 1 - String.length (JS.decimal n)) ++ JS.decimal n
          else JS.decimal n).
assert (Hm : (S f + 1 <= String.length m)%nat).
{ unfold m. destruct (Nat.leb_spec (String.length (JS.decimal n)) (S f)).
  - rewrite length_append, zeros_length. lia.
  - lia. }
exists (substring 0 (String.length m - S f) m),
       (substring (String.length m - S f) (S f) m).
split; [ reflexivity | ].
rewrite !substring_length by lia. lia.
Qed.

(** A finite number below [1e21] is written by [toFixed] with exactly the
    decimals asked for. *)
Lemma toFixed_decimals (numberToString : float -> string) (x : float) (f : nat)
  (s : bool) (m : positive) (e : Z) :
  Prim2SF x = S754_finite s m e -> (1e21 <=? abs x)%float = false ->
  exists a b, JS.toFixed numberToString x (S f) = (if s then "-" else "") ++ a ++ "." ++ b /\
              String.length b = S f /\ (1 <= String.length a)%nat.
Proof.
intros Hx Hsmall. unfold JS.toFixed. rewrite Hx, Hsmall.
destruct (pointed_decimals (JS.nearest m e (S f)) f) as (a & b & Hp & Hb & Ha).
exists a, b. now rewrite Hp.
Qed.

End FloatFacts.

(** ** Data model: the market snapshot *)

Record Outcome : Set := {
  name : string;
  price : float
}.

(** A market of the snapshot.  [title] and [description] are [None] when the
    field is missing or [null]; the display-only fields [favoredOutcome] and
    [endTime] are read by the prompt builders alone and are left out. *)
Record Market : Set := {
  id : string;
  title : option string;
  description : option string;
  outcomes : list Outcome;
  volume24h : JS.value;
  volumeTotal : JS.value;
  liquidity : JS.value
}.

(** [polymarketData]: the parsed snapshot; its [markets] array may be missing. *)
Record Snapshot : Set := {
  markets : option (list Market)
}.

(** ** Relevance scorer: [findRelevantMarkets] *)
Module Scorer.
Import JS.

#[local] Open Scope Z_scope.

(** The [categories] table of [findRelevantMarkets]. *)
Definition categories : list (string * list string) :=
[ ("premier_league", ["premier league"; "epl"; "english premier"; "manchester";
                      "liverpool"; "chelsea"; "arsenal"; "tottenham"]);
  ("football", ["football"; "soccer"; "fifa"; "world cup"; "uefa"; "champions league"]);
  ("american_football", ["nfl"; "super bowl"; "american football"; "chiefs";
                         "cowboys"; "patriots"]);
  ("basketball", ["nba"; "basketball"; "lakers"; "warriors"; "lebron"; "finals"]);
  ("baseball", ["mlb"; "baseball"; "yankees"; "dodgers"; "world series"]);
  ("fed_rates", ["fed"; "federal reserve"; "interest rate"; "fomc"; "jerome powell"]);
  ("politics", ["election"; "president"; "biden"; "trump"; "congress"; "senate"]);
  ("crypto", ["bitcoin"; "ethereum"; "crypto"; "btc"; "eth"; "binance"; "coinbase"]);
  ("stocks", ["stock"; "nasdaq"; "dow"; "sp500"; "s&p"; "apple"; "tesla"; "nvidia"]);
  ("entertainment", ["oscar"; "emmy"; "grammy"; "movie"; "netflix"; "disney"]) ].

(** [queryLower.split(' ').filter(word => word.length > 2)]. *)
Definition queryWords (queryLower : string) : list string :=
filter (fun word => (2 <? String.length word)%nat) (split_space queryLower).

(** The body of [queryWords.forEach]: direct keyword matching. *)
Definition wordStep (title description : string) (score : Z) (word : string) : Z :=
let score := if includes title word then score + 10 else score in
if includes description word then score + 5 else score.

(** The body of the inner [keywords.forEach]: category matching. *)
Definition keywordStep (queryLower title description : string) (score : Z)
  (keyword : string) : Z :=
if includes queryLower keyword then
  if includes title keyword || includes description keyword then score + 15
  else score
else score.

(** The body of [Object.entries(categories).forEach]. *)
Definition categoryStep (queryLower title description : string) (score : Z)
  (entry : string * list string) : Z :=
fold_left (keywordStep queryLower title description) (snd entry) score.

(** Volume weighting. *)
Definition volumeStep (market : Market) (score : Z) : Z :=
let score := if gt (volume24h market) 1000000 then score + 3 else score in
if gt (volume24h market) 5000000 then score + 2 else score.

(** The score the callback of [markets.forEach] computes for one market; reading
    [toLowerCase] off a missing [title] or [description] throws. *)
Definition scoreMarket (queryLower : string) (market : Market) : result Z :=
match title market with
| None => Throw TypeError
| Some t =>
    let title := toLowerCase t in
    match description market with
    | None => Throw TypeError
    | Some d =>
        let description := toLowerCase d in
        let score := 0 in
        let score := fold_left (wordStep title description) (queryWords queryLower) score in
        let score := fold_left (categoryStep queryLower title description) categories score in
        Ok (volumeStep market score)
    end
end.

(** [markets.forEach((market, index) => ...)]: [searchScore] receives the key
    [index] when the score is positive.  The keys are array indices, which
    [Object.entries] lists in ascending order: the order they are added in. *)
Fixpoint scoreAll (queryLower : string) (markets : list Market) (index : nat)
  (searchScore : list (nat * Z)) : result (list (nat * Z)) :=
match markets with
| [] => Ok searchScore
| market :: rest =>
    bind (scoreMarket queryLower market) (fun score =>
    scoreAll queryLower rest (S index)
      (if 0 <? score then searchScore ++ [(index, score)] else searchScore))
end.

(** The comparison function [([, a], [, b]) => b - a] is positive. *)
Definition byScore (x y : nat * Z) : bool := 0 <? snd y - snd x.

(** [.sort(...).slice(0, 6)]: the entries kept, best first. *)
Definition ranking (searchScore : list (nat * Z)) : list (nat * Z) :=
firstn 6 (sort byScore searchScore).

(** [.map(([index]) => markets[parseInt(index)])]; every index is a position
    of [markets]. *)
Fixpoint pick (markets : list Market) (entries : list (nat * Z)) : list Market :=
match entries with
| [] => []
| (index, _) :: rest =>
    match nth_error markets index with
    | Some market => market :: pick markets rest
    | None => pick markets rest
    end
end.

(** The comparison function [(a, b) => (b.volume24h || 0) - (a.volume24h || 0)]
    is positive. *)
Definition byVolume (a b : Market) : bool :=
(0 <? orZero (volume24h b) - orZero (volume24h a))%float.

(** The fallback: highest-volume markets. *)
Definition fallback (markets : list Market) : list Market :=
firstn 5 (sort byVolume (filter (fun m => gt (volume24h m) 0) markets)).

(** [polymarketData.markets || []]. *)
Definition marketList (polymarketData : Snapshot) : list Market :=
match markets polymarketData with
| Some ms => ms
| None => []
end.

Definition findRelevantMarkets (polymarketData : Snapshot) (query : string)
  : result (list Market) :=
let queryLower := toLowerCase query in
let markets := marketList polymarketData in
bind (scoreAll queryLower markets 0 []) (fun searchScore =>
let relevantMarkets := pick markets (ranking searchScore) in
if (List.length relevantMarkets =? 0)%nat then Ok (fallback markets)
else Ok relevantMarkets).

End Scorer.

(** ** Facts about the stable sort *)
Module SortFacts.
Import JS.

#[local] Open Scope Z_scope.

Section Generic.
Context {A : Type}.
Variable after : A -> A -> bool.

Lemma insert_perm (x : A) (l : list A) : Permutation (insert after x l) (x :: l).
Proof.
induction l as [ | y l IH]; cbn [insert]; [ reflexivity | ].
destruct (after x y); [ | reflexivity ].
rewrite IH. apply perm_swap.
Qed.

Lemma sort_perm (l : list A) : Permutation (sort after l) l.
Proof.
induction l as [ | x l IH]; cbn [sort fold_right]; [ reflexivity | ].
fold (sort after l). rewrite insert_perm. now constructor.
Qed.

Lemma sort_In (l : list A) (x : A) : In x (sort after l) <-> In x l.
Proof.
split; apply Permutation_in; [ | symmetry ]; apply sort_perm.
Qed.

Lemma sort_length (l : list A) : List.length (sort after l) = List.length l.
Proof. apply Permutation_length, sort_perm. Qed.

(** Only the comparisons between elements of the list matter. *)
Lemma insert_ext_in (after' : A -> A -> bool) (x : A) (l : list A) :
  (forall y, In y l -> after x y = after' x y) ->
  insert after x l = insert after' x l.
Proof.
induction l as [ | y l IH]; intro H; cbn [insert]; [ reflexivity | ].
rewrite <- (H y) by now left.
destruct (after x y); [ | reflexivity ].
f_equal. apply IH. intros z Hz. apply H. now right.
Qed.

End Generic.

Lemma sort_ext_in {A : Type} (after after' : A -> A -> bool) (l : list A) :
  (forall x y, In x l -> In y l -> after x y = after' x y) ->
  sort after l = sort after' l.
Proof.
induction l as [ | x l IH]; intro H; cbn [sort fold_right]; [ reflexivity | ].
fold (sort after l) (sort after' l).
rewrite <- IH by (intros; apply H; now right).
apply insert_ext_in. intros y Hy. apply sort_In in Hy.
apply H; [ now left | now right ].
Qed.

(** A comparison function that compares integer keys. *)
Section Keyed.
Context {A : Type}.
Variable after : A -> A -> bool.
Variable key : A -> Z.
Hypothesis after_key : forall x y, after x y = (key x <? key y).

(** Descending keys. *)
Definition descending (x y : A) : Prop := key y <= key x.

Lemma insert_descending (x : A) (l : list A) :
  StronglySorted descending l -> StronglySorted descending (insert after x l).
Proof.
induction 1 as [ | y l Hs IH Hy]; cbn [insert].
- repeat constructor.
- rewrite after_key. destruct (Z.ltb_spec (key x) (key y)) as [Hlt | Hge].
  + constructor; [ exact IH | ].
    apply Forall_forall. intros z Hz.
    apply (Permutation_in _ (insert_perm after x l)) in Hz.
    destruct Hz as [<- | Hz]; [ unfold descending; lia | ].
    now apply (proj1 (Forall_forall _ _) Hy).
  + constructor; [ now constructor | ].
    constructor; [ exact Hge | ].
    apply Forall_forall. intros z Hz.
    apply (proj1 (Forall_forall _ _) Hy) in Hz. unfold descending in *. lia.
Qed.

Lemma sort_descending (l : list A) : StronglySorted descending (sort after l).
Proof.
induction l as [ | x l IH]; cbn [sort fold_right]; [ constructor | ].
now apply insert_descending.
Qed.

(** Stability: among equal keys the earlier element stays first.  [pos]
    numbers the elements of the input, in increasing order. *)
Variable pos : A -> nat.

Definition before (x y : A) : Prop :=
  key y < key x \/ (key x = key y /\ (pos x < pos y)%nat).

Lemma insert_before (x : A) (l : list A) :
  Forall (fun y => (pos x < pos y)%nat) l ->
  StronglySorted before l -> StronglySorted before (insert after x l).
Proof.
intros Hx Hs. induction Hs as [ | y l Hs IH Hy]; cbn [insert].
- repeat constructor.
- inversion Hx as [ | ? ? Hxy Hxl ]; subst.
  rewrite after_key. destruct (Z.ltb_spec (key x) (key y)) as [Hlt | Hge].
  + constructor; [ now apply IH | ].
    apply Forall_forall. intros z Hz.
    apply (Permutation_in _ (insert_perm after x l)) in Hz.
    destruct Hz as [<- | Hz]; [ now left | ].
    now apply (proj1 (Forall_forall _ _) Hy).
  + constructor; [ now constructor | ].
    constructor; [ unfold before; lia | ].
    apply Forall_forall. intros z Hz.
    pose proof (proj1 (Forall_forall _ _) Hy z Hz) as Hyz.
    pose proof (proj1 (Forall_forall _ _) Hxl z Hz) as Hxz.
    unfold before in *. lia.
Qed.

Lemma sort_before (l : list A) :
  StronglySorted (fun x y => (pos x < pos y)%nat) l ->
  StronglySorted before (sort after l).
Proof.
induction 1 as [ | x l Hs IH Hx]; cbn [sort fold_right]; [ constructor | ].
apply insert_before; [ | exact IH ].
apply Forall_forall. intros y Hy. apply sort_In in Hy.
now apply (proj1 (Forall_forall _ _) Hx).
Qed.

End Keyed.

(** Prefixes of sorted lists, and what is cut off. *)
Section Prefix.
Context {A : Type}.
Variable R : A -> A -> Prop.

Lemma firstn_sorted (n : nat) (l : list A) :
  StronglySorted R l -> StronglySorted R (firstn n l).
Proof.
intro H. revert n. induction H as [ | x l Hs IH Hx]; intros [ | n]; cbn [firstn];
  try constructor.
- apply IH.
- apply Forall_forall. intros y Hy.
  apply (proj1 (Forall_forall _ _) Hx).
  rewrite <- (firstn_skipn n l). apply in_or_app. now left.
Qed.

Lemma firstn_skipn_sorted (n : nat) (l : list A) (x y : A) :
  StronglySorted R l -> In x (firstn n l) -> In y (skipn n l) -> R x y.
Proof.
intro H. revert n. induction H as [ | z l Hs IH Hz]; intros [ | n]; cbn [firstn skipn];
  try contradiction.
intros [<- | Hx] Hy.
- apply (proj1 (Forall_forall _ _) Hz).
  rewrite <- (firstn_skipn n l). apply in_or_app. now right.
- now apply (IH n).
Qed.

End Prefix.

End SortFacts.

(** ** Properties of the relevance scorer *)
Module ScorerProps.
Import JS Scorer SortFacts.

#[local] Open Scope Z_scope.

(** *** The score as the specification words it *)

(** How many elements of [l] satisfy [p]. *)
Definition count {A : Type} (p : A -> bool) (l : list A) : Z :=
Z.of_nat (List.length (filter p l)).

(** Every category keyword phrase, over all categories. *)
Definition keywords : list string := List.concat (map snd categories).

(** The volume bonus: 3 above 1,000,000 and a further 2 above 5,000,000. *)
Definition volumeBonus (v : value) : Z :=
(if gt v 1000000 then 3 else 0) + (if gt v 5000000 then 2 else 0).

(** The stated score of a market with title [t], description [d] and 24h
    volume [v]: 10 per query token in the title, 5 per query token in the
    description, 15 per category keyword found in the query and in the title
    or description, plus the volume bonus. *)
Definition statedScore (query t d : string) (v : value) : Z :=
let q := toLowerCase query in
let t := toLowerCase t in
let d := toLowerCase d in
10 * count (includes t) (queryWords q)
+ 5 * count (includes d) (queryWords q)
+ 15 * count (fun k => includes q k && (includes t k || includes d k)) keywords
+ volumeBonus v.

(** The score [findRelevantMarkets] gives a market for a query. *)
Definition scoreOf (query : string) (m : Market) : result Z :=
scoreMarket (toLowerCase query) m.

(** The market enters [searchScore]. *)
Definition qualifies (query : string) (m : Market) : bool :=
match scoreOf query m with
| Ok s => 0 <? s
| Throw _ => false
end.

(** Title and description are both present. *)
Definition textual (m : Market) : Prop :=
title m <> None /\ description m <> None.

(** The order of the ranking: higher score first, equal scores by position. *)
Definition better (x y : nat * Z) : Prop :=
snd y < snd x \/ (snd x = snd y /\ (fst x < fst y)%nat).

(** *** The score is the stated sum *)

Lemma count_nonneg {A : Type} (p : A -> bool) (l : list A) : 0 <= count p l.
Proof. unfold count. lia. Qed.

Lemma count_cons {A : Type} (p : A -> bool) (x : A) (l : list A) :
  count p (x :: l) = (if p x then 1 else 0) + count p l.
Proof.
unfold count. cbn [filter]. destruct (p x); cbn [List.length]; lia.
Qed.

Lemma count_app {A : Type} (p : A -> bool) (l l' : list A) :
  count p (l ++ l') = count p l + count p l'.
Proof.
unfold count. rewrite filter_app, length_app. lia.
Qed.

Lemma fold_wordStep (t d : string) (ws : list string) (acc : Z) :
  fold_left (wordStep t d) ws acc
  = acc + 10 * count (includes t) ws + 5 * count (includes d) ws.
Proof.
revert acc. induction ws as [ | w ws IH]; intro acc; cbn [fold_left].
- unfold count. cbn. lia.
- rewrite IH, !count_cons. unfold wordStep.
  destruct (includes t w), (includes d w); lia.
Qed.

Lemma fold_keywordStep (q t d : string) (ks : list string) (acc : Z) :
  fold_left (keywordStep q t d) ks acc
  = acc + 15 * count (fun k => includes q k && (includes t k || includes d k)) ks.
Proof.
revert acc. induction ks as [ | k ks IH]; intro acc; cbn [fold_left].
- unfold count. cbn. lia.
- rewrite IH, count_cons. unfold keywordStep.
  destruct (includes q k), (includes t k || includes d k); cbn [andb]; lia.
Qed.

Lemma fold_categoryStep (q t d : string) (cats : list (string * list string)) (acc : Z) :
  fold_left (categoryStep q t d) cats acc
  = acc + 15 * count (fun k => includes q k && (includes t k || includes d k))
                     (List.concat (map snd cats)).
Proof.
revert acc. induction cats as [ | c cats IH]; intro acc; cbn [fold_left map List.concat].
- unfold count. cbn. lia.
- rewrite IH, count_app. unfold categoryStep. rewrite fold_keywordStep. lia.
Qed.

Lemma volumeStep_bonus (m : Market) (s : Z) :
  volumeStep m s = s + volumeBonus (volume24h m).
Proof.
unfold volumeStep, volumeBonus.
destruct (gt (volume24h m) 1000000), (gt (volume24h m) 5000000); lia.
Qed.

Lemma volumeBonus_nonneg (v : value) : 0 <= volumeBonus v.
Proof.
unfold volumeBonus. destruct (gt v 1000000), (gt v 5000000); lia.
Qed.

Lemma scoreOf_stated (query : string) (m : Market) (t d : string) :
  title m = Some t -> description m = Some d ->
  scoreOf query m = Ok (statedScore query t d (volume24h m)).
Proof.
intros Ht Hd. unfold scoreOf, scoreMarket. rewrite Ht, Hd. f_equal.
rewrite volumeStep_bonus, fold_categoryStep, fold_wordStep.
unfold statedScore, keywords. lia.
Qed.

Lemma scoreOf_textual (query : string) (m : Market) :
  textual m -> exists t d, title m = Some t /\ description m = Some d /\
                           scoreOf query m = Ok (statedScore query t d (volume24h m)).
Proof.
intros [Ht Hd].
destruct (title m) as [t | ] eqn:Et; [ | congruence ].
destruct (description m) as [d | ] eqn:Ed; [ | congruence ].
exists t, d. repeat split. now apply scoreOf_stated.
Qed.

Lemma scoreOf_lower_bound (query : string) (m : Market) (s : Z) :
  scoreOf query m = Ok s -> volumeBonus (volume24h m) <= s.
Proof.
unfold scoreOf, scoreMarket.
destruct (title m) as [t | ]; [ | discriminate ].
destruct (description m) as [d | ]; [ | discriminate ].
intro H. apply Ok_inj in H. subst s.
rewrite volumeStep_bonus, fold_categoryStep, fold_wordStep.
pose proof (count_nonneg (includes (toLowerCase t)) (queryWords (toLowerCase query))).
pose proof (count_nonneg (includes (toLowerCase d)) (queryWords (toLowerCase query))).
pose proof (count_nonneg (fun k => includes (toLowerCase query) k &&
   (includes (toLowerCase t) k || includes (toLowerCase d) k)) (List.concat (map snd categories))).
lia.
Qed.

(** *** What [searchScore] holds *)

(** The entries of [searchScore] for the markets from position [index] on:
    the positions of the qualifying markets, in order, with their scores. *)
Fixpoint positives (query : string) (ms : list Market) (index : nat) : list (nat * Z) :=
match ms with
| [] => []
| m :: rest =>
    match scoreOf query m with
    | Ok s => if 0 <? s then (index, s) :: positives query rest (S index)
              else positives query rest (S index)
    | Throw _ => positives query rest (S index)
    end
end.

Lemma scoreAll_positives (query : string) (ms : list Market) (index : nat)
  (acc : list (nat * Z)) :
  Forall (fun m => exists s, scoreOf query m = Ok s) ms ->
  scoreAll (toLowerCase query) ms index acc = Ok (acc ++ positives query ms index)%list.
Proof.
intro H. revert index acc.
induction H as [ | m ms [s Hs] _ IH]; intros index acc; cbn [scoreAll positives].
- now rewrite app_nil_r.
- rewrite Hs. unfold scoreOf in Hs. rewrite Hs. cbn [bind].
  rewrite IH. destruct (0 <? s); [ | reflexivity ].
  now rewrite <- app_assoc.
Qed.

Lemma scoreAll_Ok_inv (q : string) (ms : list Market) (index : nat)
  (acc l : list (nat * Z)) :
  scoreAll q ms index acc = Ok l ->
  Forall (fun m => exists s, scoreMarket q m = Ok s) ms.
Proof.
revert index acc. induction ms as [ | m ms IH]; intros index acc H; [ constructor | ].
cbn [scoreAll] in H. destruct (scoreMarket q m) as [s | e] eqn:E; cbn [bind] in H.
- constructor; [ now exists s | now apply IH in H ].
- discriminate.
Qed.

Lemma scoreAll_Throw (q : string) (ms : list Market) (index : nat)
  (acc : list (nat * Z)) :
  Exists (fun m => scoreMarket q m = Throw TypeError) ms ->
  scoreAll q ms index acc = Throw TypeError.
Proof.
intro H. revert index acc.
induction ms as [ | m ms IH]; intros index acc; [ inversion H | ].
cbn [scoreAll]. destruct (scoreMarket q m) as [s | [ ]] eqn:E; cbn [bind]; [ | reflexivity ].
apply IH. inversion H as [ ? ? Hm | ? ? Hm ]; subst; [ congruence | exact Hm ].
Qed.

Lemma positives_In (query : string) (ms : list Market) (index i : nat) (s : Z) :
  In (i, s) (positives query ms index) <->
  exists m, (index <= i)%nat /\ nth_error ms (i - index) = Some m /\
            scoreOf query m = Ok s /\ 0 < s.
Proof.
revert index. induction ms as [ | m ms IH]; intro index; cbn [positives].
- split; [ contradiction | ]. intros (m & _ & H & _).
  now destruct (i - index)%nat.
- assert (Hrest : In (i, s) (positives query ms (S index)) <->
                  exists m', (S index <= i)%nat /\ nth_error (m :: ms) (i - index) = Some m' /\
                             scoreOf query m' = Ok s /\ 0 < s).
  { rewrite IH. split; intros (m' & Hi & Hn & Hs).
    - exists m'. repeat split; try tauto.
      replace (i - index)%nat with (S (i - S index)) by lia. exact Hn.
    - exists m'. repeat split; try tauto.
      replace (i - index)%nat with (S (i - S index)) in Hn by lia. exact Hn. }
  assert (Hhere : forall m', (index <= i)%nat -> nth_error (m :: ms) (i - index) = Some m' ->
                             i = index /\ m' = m \/ (S index <= i)%nat).
  { intros m' Hi Hn. destruct (Nat.eq_dec i index) as [-> | Hne]; [ left | right; lia ].
    rewrite Nat.sub_diag in Hn. cbn in Hn. split; congruence. }
  destruct (scoreOf query m) as [s0 | e] eqn:E.
  + destruct (Z.ltb_spec 0 s0) as [Hpos | Hneg]; cbn [In]; rewrite ?Hrest.
    * split.
      -- intros [Heq | (m' & Hi & Hn & Hs)].
         ++ injection Heq as <- <-. exists m. rewrite Nat.sub_diag. cbn. auto.
         ++ exists m'. repeat split; try tauto. lia.
      -- intros (m' & Hi & Hn & Hs & Hp).
         destruct (Hhere m' Hi Hn) as [[-> ->] | Hlt].
         ++ left. congruence.
         ++ right. exists m'. auto.
    * split.
      -- intros (m' & Hi & Hn & Hs). exists m'. repeat split; try tauto. lia.
      -- intros (m' & Hi & Hn & Hs & Hp).
         destruct (Hhere m' Hi Hn) as [[-> ->] | Hlt].
         ++ assert (s = s0) by congruence. lia.
         ++ exists m'. auto.
  + rewrite Hrest. split.
    * intros (m' & Hi & Hn & Hs). exists m'. repeat split; try tauto. lia.
    * intros (m' & Hi & Hn & Hs & Hp).
      destruct (Hhere m' Hi Hn) as [[-> ->] | Hlt]; [ congruence | ].
      exists m'. auto.
Qed.

Lemma positives_lower (query : string) (ms : list Market) (index : nat) :
  Forall (fun e => (index <= fst e)%nat) (positives query ms index).
Proof.
apply Forall_forall. intros [i s] H. apply positives_In in H.
destruct H as (m & Hi & _). exact Hi.
Qed.

Lemma positives_increasing (query : string) (ms : list Market) (index : nat) :
  StronglySorted (fun x y => (fst x < fst y)%nat) (positives query ms index).
Proof.
revert index. induction ms as [ | m ms IH]; intro index; cbn [positives];
  [ constructor | ].
destruct (scoreOf query m) as [s | e]; [ | apply IH ].
destruct (0 <? s); [ | apply IH ].
constructor; [ apply IH | ].
apply Forall_impl with (2 := positives_lower query ms (S index)).
intros e He. cbn [fst]. lia.
Qed.

Lemma positives_length (query : string) (ms : list Market) (index : nat) :
  List.length (positives query ms index) = List.length (filter (qualifies query) ms).
Proof.
revert index. induction ms as [ | m ms IH]; intro index; cbn [positives filter];
  [ reflexivity | ].
unfold qualifies at 1. destruct (scoreOf query m) as [s | e]; [ | apply IH ].
destruct (0 <? s); cbn [List.length]; now rewrite IH.
Qed.

(** [pick] reads the market at each entry's position. *)
Lemma pick_Forall2 (ms : list Market) (P : nat * Z -> Market -> Prop)
  (es : list (nat * Z)) :
  Forall (fun e => exists m, nth_error ms (fst e) = Some m /\ P e m) es ->
  Forall2 (fun e m => nth_error ms (fst e) = Some m /\ P e m) es (pick ms es).
Proof.
induction 1 as [ | [i s] es (m & Hn & Hp) _ IH]; cbn [pick]; [ constructor | ].
cbn [fst] in Hn. rewrite Hn. constructor; [ | exact IH ]. now split.
Qed.

Lemma byScore_key (x y : nat * Z) : byScore x y = (snd x <? snd y).
Proof.
unfold byScore. destruct (Z.ltb_spec 0 (snd y - snd x)), (Z.ltb_spec (snd x) (snd y)); lia.
Qed.

Lemma ranking_In (es : list (nat * Z)) (e : nat * Z) :
  In e (ranking es) -> In e es.
Proof.
intro H. unfold ranking in H.
apply (sort_In byScore). rewrite <- (firstn_skipn 6 (sort byScore es)).
apply in_or_app. now left.
Qed.

Lemma ranking_sorted (es : list (nat * Z)) :
  StronglySorted (fun x y => (fst x < fst y)%nat) es ->
  StronglySorted better (ranking es).
Proof.
intro H. apply firstn_sorted.
exact (sort_before byScore snd byScore_key fst es H).
Qed.

Lemma ranking_complete (es : list (nat * Z)) (e : nat * Z) :
  StronglySorted (fun x y => (fst x < fst y)%nat) es ->
  In e es -> In e (ranking es) \/ Forall (fun x => better x e) (ranking es).
Proof.
intros Hs He. apply (sort_In byScore) in He.
rewrite <- (firstn_skipn 6 (sort byScore es)) in He.
apply in_app_or in He. destruct He as [He | He]; [ now left | right ].
apply Forall_forall. intros x Hx.
apply (firstn_skipn_sorted better 6 (sort byScore es)); auto.
exact (sort_before byScore snd byScore_key fst es Hs).
Qed.

Lemma ranking_length (es : list (nat * Z)) :
  List.length (ranking es) = Nat.min 6 (List.length es).
Proof.
unfold ranking. now rewrite length_firstn, sort_length.
Qed.

(** *** The two branches of [findRelevantMarkets] *)

Lemma findRelevantMarkets_unfold (data : Snapshot) (query : string) :
  Forall (fun m => exists s, scoreOf query m = Ok s) (marketList data) ->
  findRelevantMarkets data query
  = if (List.length (pick (marketList data) (ranking (positives query (marketList data) 0)))
        =? 0)%nat
    then Ok (fallback (marketList data))
    else Ok (pick (marketList data) (ranking (positives query (marketList data) 0))).
Proof.
intro H. unfold findRelevantMarkets.
rewrite scoreAll_positives by exact H. reflexivity.
Qed.

(** What [pick] returns for the ranking: the markets at the ranked positions,
    each with the score of its entry. *)
Lemma ranking_picked (query : string) (ms : list Market) :
  Forall2 (fun e m => nth_error ms (fst e) = Some m /\
                      (scoreOf query m = Ok (snd e) /\ 0 < snd e))
          (ranking (positives query ms 0)) (pick ms (ranking (positives query ms 0))).
Proof.
apply pick_Forall2. apply Forall_forall. intros [i s] H.
apply ranking_In, positives_In in H. destruct H as (m & _ & Hn & Hs & Hp).
rewrite Nat.sub_0_r in Hn. exists m. auto.
Qed.

Lemma picked_length (query : string) (ms : list Market) :
  List.length (pick ms (ranking (positives query ms 0)))
  = Nat.min 6 (List.length (filter (qualifies query) ms)).
Proof.
rewrite <- (Forall2_length (ranking_picked query ms)).
now rewrite ranking_length, positives_length.
Qed.

(** *** The fallback *)

(** The 24h volume as a number. *)
Definition vol (m : Market) : float := toNumber (volume24h m).

(** [a] may stand before [b] in descending order of volume. *)
Definition notBelow (a b : Market) : Prop := (vol a <? vol b)%float = false.

Lemma gt_0_number (v : value) :
  gt v 0 = true -> orZero v = toNumber v /\ (0 <? toNumber v)%float = true.
Proof.
unfold gt. intro H. split; [ | exact H ].
destruct v as [ | | x]; cbn [toNumber] in H; try discriminate H.
apply FloatFacts.ltb_not_eqb in H. destruct H as [H0 Hx].
unfold orZero, truthy. cbn [toNumber]. now rewrite H0, Hx.
Qed.

Lemma byVolume_key (a b : Market) :
  gt (volume24h a) 0 = true -> gt (volume24h b) 0 = true ->
  byVolume a b = (FloatFacts.fkey (vol a) <? FloatFacts.fkey (vol b)).
Proof.
intros Ha Hb. apply gt_0_number in Ha, Hb.
destruct Ha as [Ea Ha], Hb as [Eb Hb].
unfold byVolume. rewrite Ea, Eb. now apply FloatFacts.sub_sign_fkey.
Qed.

Lemma StronglySorted_impl_in {A : Type} (R R' : A -> A -> Prop) (l : list A) :
  (forall x y, In x l -> In y l -> R x y -> R' x y) ->
  StronglySorted R l -> StronglySorted R' l.
Proof.
intros H Hs. induction Hs as [ | x l Hs IH Hx]; constructor.
- apply IH. intros y z Hy Hz. apply H; now right.
- apply Forall_forall. intros y Hy. apply H; [ now left | now right | ].
  now apply (proj1 (Forall_forall _ _) Hx).
Qed.

(** The markets with a positive volume, highest first. *)
Definition byVolumeSorted (ms : list Market) : list Market :=
sort byVolume (filter (fun m => gt (volume24h m) 0) ms).

Lemma byVolumeSorted_positive (ms : list Market) (m : Market) :
  In m (byVolumeSorted ms) -> gt (volume24h m) 0 = true.
Proof.
intro H. apply sort_In, filter_In in H. tauto.
Qed.

Lemma byVolumeSorted_sorted (ms : list Market) :
  StronglySorted notBelow (byVolumeSorted ms).
Proof.
set (k := fun m => FloatFacts.fkey (vol m)).
assert (E : byVolumeSorted ms
            = sort (fun a b => k a <? k b) (filter (fun m => gt (volume24h m) 0) ms)).
{ apply sort_ext_in. intros a b Ha Hb. apply filter_In in Ha, Hb.
  apply byVolume_key; tauto. }
pose proof (sort_descending (fun a b => k a <? k b) k (fun _ _ => eq_refl)
              (filter (fun m => gt (volume24h m) 0) ms)) as Hs.
rewrite <- E in Hs. revert Hs. apply StronglySorted_impl_in.
intros a b Ha Hb Hab. unfold descending, k in Hab.
apply byVolumeSorted_positive, gt_0_number in Ha, Hb.
unfold notBelow. rewrite FloatFacts.ltb_fkey by tauto.
apply Z.ltb_ge. exact Hab.
Qed.

Lemma fallback_spec (ms : list Market) :
  (List.length (fallback ms) <= 5)%nat /\
  Forall (fun m => gt (volume24h m) 0 = true) (fallback ms) /\
  StronglySorted notBelow (fallback ms) /\
  exists rest,
    Permutation (fallback ms ++ rest) (filter (fun m => gt (volume24h m) 0) ms) /\
    forall a b, In a (fallback ms) -> In b rest -> notBelow a b.
Proof.
change (fallback ms) with (firstn 5 (byVolumeSorted ms)).
repeat split.
- rewrite length_firstn. lia.
- apply Forall_forall. intros m Hm. apply byVolumeSorted_positive with ms.
  rewrite <- (firstn_skipn 5 (byVolumeSorted ms)). apply in_or_app. now left.
- apply firstn_sorted, byVolumeSorted_sorted.
- exists (skipn 5 (byVolumeSorted ms)). split.
  + rewrite firstn_skipn. apply sort_perm.
  + intros a b Ha Hb.
    apply (firstn_skipn_sorted notBelow 5 (byVolumeSorted ms)); auto.
    apply byVolumeSorted_sorted.
Qed.

(** *** Sample markets *)

Definition sampleMarket (t d : string) (v : value) : Market :=
{| id := t; title := Some t; description := Some d;
   outcomes := [ {| name := "Yes"; price := 0.5 |}; {| name := "No"; price := 0.5 |} ];
   volume24h := v; volumeTotal := v; liquidity := Null |}.

Definition untitledMarket (v : value) : Market :=
{| id := "m0"; title := None; description := Some "Will it rain tomorrow?";
   outcomes := [ {| name := "Yes"; price := 0.5 |}; {| name := "No"; price := 0.5 |} ];
   volume24h := v; volumeTotal := v; liquidity := Null |}.

Definition snapshotOf (ms : list Market) : Snapshot := {| markets := Some ms |}.

Definition rainZero : Market := sampleMarket "Rain in Paris" "Weather" (Number 0).
Definition rainSmall : Market := sampleMarket "Rain in Paris" "Weather" (Number 500).
Definition snowTwoMillion : Market := sampleMarket "Snow in Oslo" "Weather" (Number 2000000).
Definition snowThreeMillion : Market := sampleMarket "Snow in Rome" "Weather" (Number 3000000).
Definition fogHalfMillion : Market := sampleMarket "Fog in London" "Weather" (Number 500000).
Definition hailNineHundredK : Market := sampleMarket "Hail in Rome" "Weather" (Number 900000).
Definition cityTitle : Market :=
  sampleMarket "Manchester City to win Premier League" "EPL winner" (Number 500).
Definition fedTitle : Market :=
  sampleMarket "Fed interest rate decision" "FOMC meeting" (Number 6000000).

(** *** Empty texts and the empty query *)

Lemma count_zero {A : Type} (p : A -> bool) (l : list A) :
  (forall x, In x l -> p x = false) -> count p l = 0.
Proof.
intro H. induction l as [ | x l IH]; [ reflexivity | ].
rewrite count_cons, (H x) by now left.
rewrite IH; [ reflexivity | ]. intros y Hy. apply H. now right.
Qed.

Lemma includes_empty_text (w : string) : w <> "" -> includes "" w = false.
Proof. destruct w; [ congruence | reflexivity ]. Qed.

Lemma queryWords_nonempty (q w : string) : In w (queryWords q) -> w <> "".
Proof.
unfold queryWords. intro H. apply filter_In in H. destruct H as [_ H].
intros ->. discriminate H.
Qed.

Lemma keywords_nonempty (k : string) : In k keywords -> includes "" k = false.
Proof.
assert (H : forallb (fun k => negb (includes "" k)) keywords = true) by reflexivity.
intro Hk. apply (proj1 (forallb_forall _ _) H) in Hk.
now apply negb_true_iff in Hk.
Qed.

Lemma statedScore_empty_texts (query : string) (v : value) :
  statedScore query "" "" v = volumeBonus v.
Proof.
unfold statedScore. cbn [toLowerCase].
rewrite (count_zero (includes "")).
- rewrite (count_zero _ keywords); [ lia | ].
  intros k Hk. rewrite (keywords_nonempty k Hk). apply andb_false_r.
- intros w Hw. apply includes_empty_text. now apply queryWords_nonempty in Hw.
Qed.

Lemma statedScore_empty_query (t d : string) (v : value) :
  statedScore "" t d v = volumeBonus v.
Proof.
unfold statedScore. cbn [toLowerCase].
change (queryWords "") with (@nil string).
rewrite (count_zero _ keywords); [ unfold count; cbn [filter List.length]; lia | ].
intros k Hk. now rewrite (keywords_nonempty k Hk).
Qed.

Lemma volumeBonus_positive (v : value) : 0 < volumeBonus v <-> gt v 1000000 = true.
Proof.
unfold volumeBonus, gt.
destruct (1000000 <? toNumber v)%float eqn:E1.
- destruct (5000000 <? toNumber v)%float; split; auto; lia.
- destruct (5000000 <? toNumber v)%float eqn:E5; [ | split; [ lia | discriminate ] ].
  rewrite (FloatFacts.ltb_trans 1000000 5000000 _ eq_refl E5) in E1. discriminate.
Qed.

Lemma textual_scores (query : string) (ms : list Market) :
  Forall textual ms -> Forall (fun m => exists s, scoreOf query m = Ok s) ms.
Proof.
apply Forall_impl. intros m Hm.
destruct (scoreOf_textual query m Hm) as (t & d & _ & _ & H). eauto.
Qed.

(** *** The ranking branch *)

(** [res] is the ranking of the markets [ms] for [query], [entries] being the
    ranked positions with their scores: each returned market stands at its
    entry's position and has the entry's score, which is positive; the
    entries go by descending score, equal scores by position; at most six
    are returned, and exactly six when more qualify; and a qualifying market
    that was cut off ranks behind every entry returned. *)
Definition Ranked (query : string) (ms : list Market) (entries : list (nat * Z))
  (res : list Market) : Prop :=
Forall2 (fun e m => nth_error ms (fst e) = Some m /\
                    (scoreOf query m = Ok (snd e) /\ 0 < snd e)) entries res /\
StronglySorted better entries /\
List.length res = Nat.min 6 (List.length (filter (qualifies query) ms)) /\
(forall j m s, nth_error ms j = Some m -> scoreOf query m = Ok s -> 0 < s ->
               In (j, s) entries \/ Forall (fun e => better e (j, s)) entries).

Lemma ranking_Ranked (query : string) (ms : list Market) :
  Ranked query ms (ranking (positives query ms 0)) (pick ms (ranking (positives query ms 0))).
Proof.
repeat split.
- apply ranking_picked.
- apply ranking_sorted, positives_increasing.
- apply picked_length.
- intros j m s Hn Hs Hp. apply ranking_complete; [ apply positives_increasing | ].
  apply positives_In. exists m. rewrite Nat.sub_0_r. repeat split; auto. lia.
Qed.

Lemma filter_nonempty {A : Type} (p : A -> bool) (l : list A) :
  Exists (fun x => p x = true) l -> (0 < List.length (filter p l))%nat.
Proof.
intro H. apply Exists_exists in H. destruct H as (x & Hx & Hp).
assert (Hin : In x (filter p l)) by (apply filter_In; auto).
destruct (filter p l); [ contradiction | cbn; lia ].
Qed.

Lemma filter_empty {A : Type} (p : A -> bool) (l : list A) :
  List.length (filter p l) = 0%nat -> Forall (fun x => p x = false) l.
Proof.
intro H. apply Forall_forall. intros x Hx.
destruct (p x) eqn:E; [ | reflexivity ].
assert (Hin : In x (filter p l)) by (apply filter_In; auto).
destruct (filter p l); [ contradiction | discriminate ].
Qed.

Lemma findRelevantMarkets_ranking (data : Snapshot) (query : string) :
  Forall (fun m => exists s, scoreOf query m = Ok s) (marketList data) ->
  Exists (fun m => qualifies query m = true) (marketList data) ->
  findRelevantMarkets data query
  = Ok (pick (marketList data) (ranking (positives query (marketList data) 0))).
Proof.
intros Hok Hq. rewrite findRelevantMarkets_unfold by exact Hok.
rewrite picked_length. apply filter_nonempty in Hq.
destruct (List.length (filter (qualifies query) (marketList data))); [ lia | reflexivity ].
Qed.

Lemma findRelevantMarkets_fallback (data : Snapshot) (query : string) :
  Forall (fun m => exists s, scoreOf query m = Ok s) (marketList data) ->
  Forall (fun m => qualifies query m = false) (marketList data) ->
  findRelevantMarkets data query = Ok (fallback (marketList data)).
Proof.
intros Hok Hq. rewrite findRelevantMarkets_unfold by exact Hok.
rewrite picked_length.
replace (filter (qualifies query) (marketList data)) with (@nil Market); [ reflexivity | ].
symmetry. induction Hq as [ | m ms Hm _ IH]; [ reflexivity | ].
cbn [filter]. rewrite Hm. apply IH. now inversion Hok.
Qed.

Lemma fallback_length (ms : list Market) :
  List.length (fallback ms)
  = Nat.min 5 (List.length (filter (fun m => gt (volume24h m) 0) ms)).
Proof.
unfold fallback. now rewrite length_firstn, sort_length.
Qed.

(** The fallback result for the markets [ms]: the five markets of highest
    positive 24h volume, or all markets with a positive volume when there are
    fewer than five; so exactly min(5, number of markets with a positive
    volume) markets, each with a positive volume, in descending order of
    volume, and no market that was cut off has a higher volume than one
    returned. *)
Definition VolumeFallback (ms res : list Market) : Prop :=
List.length res = Nat.min 5 (List.length (filter (fun m => gt (volume24h m) 0) ms)) /\
(List.length res <= 5)%nat /\
Forall (fun m => gt (volume24h m) 0 = true) res /\
StronglySorted notBelow res /\
exists rest,
  Permutation (res ++ rest) (filter (fun m => gt (volume24h m) 0) ms) /\
  forall a b, In a res -> In b rest -> notBelow a b.

(** C1, as amended: whenever at least one market of a list whose markets all
    carry a title and a description scores above zero for the query,
    [findRelevantMarkets] returns the markets with a positive score only, in
    descending order of score with equal scores in list order, cut to six
    entries (exactly six when more than six qualify, the best ones); the score
    is the stated sum of the token, category and volume bonuses. *)
Theorem findRelevantMarkets_ranked (data : Snapshot) (query : string) :
  Forall textual (marketList data) ->
  Exists (fun m => qualifies query m = true) (marketList data) ->
  exists entries res,
    findRelevantMarkets data query = Ok res /\
    Ranked query (marketList data) entries res /\
    forall m t d, In m (marketList data) -> title m = Some t -> description m = Some d ->
                  scoreOf query m = Ok (statedScore query t d (volume24h m)).
Proof.
intros Ht Hq.
exists (ranking (positives query (marketList data) 0)),
       (pick (marketList data) (ranking (positives query (marketList data) 0))).
split; [ | split ].
- apply findRelevantMarkets_ranking; [ now apply textual_scores | exact Hq ].
- apply ranking_Ranked.
- intros m t d _. apply scoreOf_stated.
Qed.

Lemma sample_textual (t d : string) (v : value) : textual (sampleMarket t d v).
Proof. split; discriminate. Qed.

Lemma findRelevantMarkets_ranked_witness :
  Forall textual (marketList (snapshotOf [fedTitle; cityTitle; rainSmall])) /\
  Exists (fun m => qualifies "Who will win the Premier League" m = true)
         (marketList (snapshotOf [fedTitle; cityTitle; rainSmall])) /\
  exists entries res,
    findRelevantMarkets (snapshotOf [fedTitle; cityTitle; rainSmall])
                        "Who will win the Premier League" = Ok res /\
    Ranked "Who will win the Premier League"
           (marketList (snapshotOf [fedTitle; cityTitle; rainSmall])) entries res /\
    forall m t d, In m (marketList (snapshotOf [fedTitle; cityTitle; rainSmall])) ->
                  title m = Some t -> description m = Some d ->
                  scoreOf "Who will win the Premier League" m
                  = Ok (statedScore "Who will win the Premier League" t d (volume24h m)).
Proof.
assert (H1 : Forall textual (marketList (snapshotOf [fedTitle; cityTitle; rainSmall])))
  by (repeat constructor; discriminate).
assert (H2 : Exists (fun m => qualifies "Who will win the Premier League" m = true)
                    (marketList (snapshotOf [fedTitle; cityTitle; rainSmall])))
  by (apply Exists_cons_hd; vm_compute; reflexivity).
split; [ exact H1 | split; [ exact H2 | ] ].
exact (findRelevantMarkets_ranked _ _ H1 H2).
Defined.

(** C1 as stated fails: with no market scoring above zero the fallback returns
    a market whose score is zero. *)
Lemma fallback_returns_unscored_market :
  findRelevantMarkets (snapshotOf [rainSmall]) "bitcoin" = Ok [rainSmall] /\
  scoreOf "bitcoin" rainSmall = Ok 0.
Proof. split; vm_compute; reflexivity. Qed.

(** *** The fallback branch *)

Lemma unscored_not_qualifying (query : string) (ms : list Market) :
  Forall (fun m => exists s, scoreOf query m = Ok s /\ s <= 0) ms ->
  Forall (fun m => exists s, scoreOf query m = Ok s) ms /\
  Forall (fun m => qualifies query m = false) ms.
Proof.
intro H. split; apply Forall_impl with (2 := H); intros m (s & Hs & Hle).
- eauto.
- unfold qualifies. rewrite Hs. apply Z.ltb_ge. exact Hle.
Qed.

(** C4, as amended: whenever no market receives a score above zero, the scorer
    returns the fallback: the five markets of highest [volume24h > 0] (all of
    them when fewer than five have a positive volume), in descending order of
    volume, [null] and zero volumes left out.  For the
    volumes [0, 900,000, 500,000] and a query without hits it returns
    [900,000, 500,000]; the fallback step applied to [0, 2,000,000, 500,000]
    yields [2,000,000, 500,000]. *)
Theorem fallback_when_nothing_scores :
  (forall (data : Snapshot) (query : string),
     Forall (fun m => exists s, scoreOf query m = Ok s /\ s <= 0) (marketList data) ->
     findRelevantMarkets data query = Ok (fallback (marketList data)) /\
     VolumeFallback (marketList data) (fallback (marketList data))) /\
  findRelevantMarkets (snapshotOf [rainZero; hailNineHundredK; fogHalfMillion]) "bitcoin"
  = Ok [hailNineHundredK; fogHalfMillion] /\
  fallback [rainZero; snowTwoMillion; fogHalfMillion] = [snowTwoMillion; fogHalfMillion].
Proof.
split; [ | split; vm_compute; reflexivity ].
intros data query H. apply unscored_not_qualifying in H. destruct H as [Hok Hq].
split; [ now apply findRelevantMarkets_fallback | ].
split; [ apply fallback_length | apply fallback_spec ].
Qed.

Lemma fallback_when_nothing_scores_witness :
  Forall (fun m => exists s, scoreOf "bitcoin" m = Ok s /\ s <= 0)
         (marketList (snapshotOf [rainZero; hailNineHundredK; fogHalfMillion])) /\
  findRelevantMarkets (snapshotOf [rainZero; hailNineHundredK; fogHalfMillion]) "bitcoin"
  = Ok (fallback (marketList (snapshotOf [rainZero; hailNineHundredK; fogHalfMillion]))) /\
  VolumeFallback (marketList (snapshotOf [rainZero; hailNineHundredK; fogHalfMillion]))
                 (fallback (marketList (snapshotOf [rainZero; hailNineHundredK; fogHalfMillion]))).
Proof.
assert (H : Forall (fun m => exists s, scoreOf "bitcoin" m = Ok s /\ s <= 0)
                   (marketList (snapshotOf [rainZero; hailNineHundredK; fogHalfMillion]))).
{ repeat constructor; exists 0; (split; [ vm_compute; reflexivity | lia ]). }
split; [ exact H | ].
exact (proj1 fallback_when_nothing_scores _ _ H).
Defined.

(** C4 as stated fails on its example: a query without title, description or
    category hits over the volumes [0, 2,000,000, 500,000] gives the second
    market the volume bonus 3, and that market is returned alone. *)
Lemma two_million_market_is_ranked :
  map (scoreOf "bitcoin") [rainZero; snowTwoMillion; fogHalfMillion] = [Ok 0; Ok 3; Ok 0] /\
  volumeBonus (volume24h snowTwoMillion) = 3 /\
  findRelevantMarkets (snapshotOf [rainZero; snowTwoMillion; fogHalfMillion]) "bitcoin"
  = Ok [snowTwoMillion].
Proof. repeat split; vm_compute; reflexivity. Qed.

(** *** The empty query *)

Lemma empty_query_score (m : Market) :
  textual m -> scoreOf "" m = Ok (volumeBonus (volume24h m)).
Proof.
intro H. destruct (scoreOf_textual "" m H) as (t & d & _ & _ & Hs).
now rewrite Hs, statedScore_empty_query.
Qed.

Lemma empty_query_qualifies (m : Market) :
  textual m -> qualifies "" m = gt (volume24h m) 1000000.
Proof.
intro H. unfold qualifies. rewrite (empty_query_score m H).
destruct (Z.ltb_spec 0 (volumeBonus (volume24h m))) as [Hp | Hn].
- symmetry. now apply volumeBonus_positive.
- destruct (gt (volume24h m) 1000000) eqn:E; [ | reflexivity ].
  apply volumeBonus_positive in E. lia.
Qed.

(** C2, as amended: for the empty query the tokens and the categories
    contribute nothing, so that a market scores its volume bonus alone; the
    result is the fallback when no market has [volume24h > 1,000,000], and
    otherwise the ranking of the markets above 1,000,000. *)
Theorem empty_query_scores_volume_only (data : Snapshot) :
  Forall textual (marketList data) ->
  Forall (fun m => scoreOf "" m = Ok (volumeBonus (volume24h m))) (marketList data) /\
  (Forall (fun m => gt (volume24h m) 1000000 = false) (marketList data) ->
   findRelevantMarkets data "" = Ok (fallback (marketList data))) /\
  (Exists (fun m => gt (volume24h m) 1000000 = true) (marketList data) ->
   exists entries res,
     findRelevantMarkets data "" = Ok res /\
     Ranked "" (marketList data) entries res /\
     Forall (fun m => gt (volume24h m) 1000000 = true) res).
Proof.
intro Ht. split; [ | split ].
- apply Forall_impl with (2 := Ht). apply empty_query_score.
- intro Hv. apply findRelevantMarkets_fallback; [ now apply textual_scores | ].
  apply Forall_forall. intros m Hm.
  rewrite empty_query_qualifies by now apply (proj1 (Forall_forall _ _) Ht).
  now apply (proj1 (Forall_forall _ _) Hv).
- intro Hv.
  exists (ranking (positives "" (marketList data) 0)),
         (pick (marketList data) (ranking (positives "" (marketList data) 0))).
  split; [ | split ].
  + apply findRelevantMarkets_ranking; [ now apply textual_scores | ].
    apply Exists_exists in Hv. destruct Hv as (m & Hm & Hv).
    apply Exists_exists. exists m. split; [ exact Hm | ].
    rewrite empty_query_qualifies by now apply (proj1 (Forall_forall _ _) Ht).
    exact Hv.
  + apply ranking_Ranked.
  + pose proof (ranking_picked "" (marketList data)) as Hp.
    induction Hp as [ | e m es res (Hn & Hs & Hpos) _ IH]; constructor; [ | exact IH ].
    apply nth_error_In in Hn.
    rewrite <- empty_query_qualifies by now apply (proj1 (Forall_forall _ _) Ht).
    unfold qualifies. rewrite Hs. now apply Z.ltb_lt.
Qed.

Lemma empty_query_scores_volume_only_witness :
  Forall textual (marketList (snapshotOf [rainZero; hailNineHundredK; fogHalfMillion])) /\
  findRelevantMarkets (snapshotOf [rainZero; hailNineHundredK; fogHalfMillion]) ""
  = Ok [hailNineHundredK; fogHalfMillion].
Proof.
assert (H : Forall textual (marketList (snapshotOf [rainZero; hailNineHundredK; fogHalfMillion])))
  by (repeat constructor; discriminate).
split; [ exact H | ].
rewrite (proj1 (proj2 (empty_query_scores_volume_only _ H)));
  [ reflexivity | repeat constructor ].
Defined.

(** C2 as stated fails: with the empty query two markets above 1,000,000 are
    ranked by their equal volume bonus, in list order, while the fallback
    would order them by volume. *)
Lemma empty_query_is_not_the_fallback :
  findRelevantMarkets (snapshotOf [snowTwoMillion; snowThreeMillion]) ""
  = Ok [snowTwoMillion; snowThreeMillion] /\
  fallback [snowTwoMillion; snowThreeMillion] = [snowThreeMillion; snowTwoMillion] /\
  findRelevantMarkets (snapshotOf [snowTwoMillion; snowThreeMillion]) ""
  <> Ok (fallback [snowTwoMillion; snowThreeMillion]).
Proof.
split; [ vm_compute; reflexivity | split; [ vm_compute; reflexivity | ] ].
intro H. apply Ok_inj in H.
assert (E : map id (pick [snowTwoMillion; snowThreeMillion]
                      (ranking [(0%nat, 3); (1%nat, 3)]))
            = map id (fallback [snowTwoMillion; snowThreeMillion])).
{ f_equal. exact H. }
vm_compute in E. discriminate E.
Qed.

(** *** Missing titles and descriptions *)

Lemma scoreOf_missing_text (query : string) (m : Market) :
  title m = None \/ description m = None -> scoreOf query m = Throw TypeError.
Proof.
unfold scoreOf, scoreMarket. intros [H | H]; rewrite H; [ reflexivity | ].
now destruct (title m).
Qed.

(** C3, as amended: scoring reads [toLowerCase] off the title and the
    description as they are, so a market whose title or description is
    missing makes the scorer throw a [TypeError]; when every market carries
    both (the empty string included) scoring does not fail, and a market with
    empty title and description scores its volume bonus for any query. *)
Theorem scoring_requires_title_and_description (data : Snapshot) (query : string) :
  (forall m, title m = None \/ description m = None -> scoreOf query m = Throw TypeError) /\
  (Exists (fun m => title m = None \/ description m = None) (marketList data) ->
   findRelevantMarkets data query = Throw TypeError) /\
  (forall m, textual m -> exists s, scoreOf query m = Ok s) /\
  (Forall textual (marketList data) -> exists res, findRelevantMarkets data query = Ok res) /\
  (forall m, title m = Some "" -> description m = Some "" ->
             scoreOf query m = Ok (volumeBonus (volume24h m))).
Proof.
repeat split.
- apply scoreOf_missing_text.
- intro H. unfold findRelevantMarkets. rewrite scoreAll_Throw; [ reflexivity | ].
  apply Exists_exists in H. destruct H as (m & Hm & Hmiss).
  apply Exists_exists. exists m. split; [ exact Hm | ].
  now apply scoreOf_missing_text.
- intros m Hm. destruct (scoreOf_textual query m Hm) as (t & d & _ & _ & H). eauto.
- intro H. apply (textual_scores query) in H.
  rewrite findRelevantMarkets_unfold by exact H.
  destruct (_ =? _)%nat; eauto.
- intros m Ht Hd. rewrite (scoreOf_stated query m "" "" Ht Hd).
  now rewrite statedScore_empty_texts.
Qed.

Lemma scoring_requires_title_and_description_witness :
  findRelevantMarkets (snapshotOf [untitledMarket (Number 500)]) "rain" = Throw TypeError /\
  exists res,
    findRelevantMarkets (snapshotOf [sampleMarket "" "" (Number 2000000)]) "rain" = Ok res.
Proof.
split.
- apply (proj1 (proj2 (scoring_requires_title_and_description
                         (snapshotOf [untitledMarket (Number 500)]) "rain"))).
  apply Exists_cons_hd. left. reflexivity.
- apply (proj1 (proj2 (proj2 (proj2 (scoring_requires_title_and_description
                         (snapshotOf [sampleMarket "" "" (Number 2000000)]) "rain"))))).
  repeat constructor; discriminate.
Defined.

(** C3 as stated fails: a market without a title is not scored as if its title
    were empty; the scorer throws. *)
Lemma missing_title_throws :
  title (untitledMarket (Number 500)) = None /\
  scoreOf "rain" (untitledMarket (Number 500)) = Throw TypeError /\
  findRelevantMarkets (snapshotOf [rainSmall; untitledMarket (Number 500)]) "rain"
  = Throw TypeError.
Proof. repeat split; vm_compute; reflexivity. Qed.

(** *** The volume bonus and the fallback branch *)

Lemma picked_qualify (query : string) (ms : list Market) :
  Forall (fun m => qualifies query m = true) (pick ms (ranking (positives query ms 0))).
Proof.
pose proof (ranking_picked query ms) as Hp.
induction Hp as [ | e m es res (_ & Hs & Hpos) _ IH]; constructor; [ | exact IH ].
unfold qualifies. rewrite Hs. now apply Z.ltb_lt.
Qed.

Lemma none_qualifies_low_volume (query : string) (ms : list Market) :
  Forall (fun m => exists s, scoreOf query m = Ok s) ms ->
  Forall (fun m => qualifies query m = false) ms ->
  Forall (fun m => gt (volume24h m) 1000000 = false) ms.
Proof.
intros Hok Hnone. apply Forall_forall. intros m Hm.
pose proof (proj1 (Forall_forall _ _) Hok m Hm) as (s & Hsm).
pose proof (proj1 (Forall_forall _ _) Hnone m Hm) as Hq.
unfold qualifies in Hq. rewrite Hsm in Hq.
apply Z.ltb_ge in Hq. apply scoreOf_lower_bound in Hsm.
destruct (gt (volume24h m) 1000000) eqn:E; [ | reflexivity ].
apply volumeBonus_positive in E. lia.
Qed.

Lemma high_volume_qualifies (query : string) (m : Market) :
  textual m -> gt (volume24h m) 1000000 = true -> qualifies query m = true.
Proof.
intros Hm Hv. destruct (scoreOf_textual query m Hm) as (t & d & _ & _ & Hs).
unfold qualifies. rewrite Hs. apply Z.ltb_lt.
pose proof (scoreOf_lower_bound query m _ Hs) as Hb.
apply volumeBonus_positive in Hv. lia.
Qed.

(** C10, as amended: the volume bonus does not depend on the query: for every
    query, a market with [volume24h > 1,000,000] that is scored at all (it
    carries a title and a description) scores at least 3.  So when some
    market of a list that can be scored has [volume24h > 1,000,000], the
    scorer returns the ranking, every returned market with a positive score,
    and not the fallback; and whenever the scorer returns the fallback (the
    result is empty or holds a market whose score is not positive), no market
    of the list has [volume24h > 1,000,000]. *)
Theorem volume_bonus_independent_of_query (data : Snapshot) (query : string) :
  (forall m, textual m -> gt (volume24h m) 1000000 = true ->
             exists s, scoreOf query m = Ok s /\ 3 <= s) /\
  (forall m s, scoreOf query m = Ok s -> gt (volume24h m) 1000000 = true -> 3 <= s) /\
  (Forall textual (marketList data) ->
   Exists (fun m => gt (volume24h m) 1000000 = true) (marketList data) ->
   exists entries res,
     findRelevantMarkets data query = Ok res /\
     Ranked query (marketList data) entries res /\
     res <> [] /\
     Forall (fun m => qualifies query m = true) res) /\
  (forall res,
     findRelevantMarkets data query = Ok res ->
     res = [] \/ Exists (fun m => qualifies query m = false) res ->
     res = fallback (marketList data) /\
     Forall (fun m => gt (volume24h m) 1000000 = false) (marketList data)) /\
  (forall searchScore,
     scoreAll (toLowerCase query) (marketList data) 0 [] = Ok searchScore ->
     pick (marketList data) (ranking searchScore) = [] ->
     findRelevantMarkets data query = Ok (fallback (marketList data)) /\
     Forall (fun m => gt (volume24h m) 1000000 = false) (marketList data)).
Proof.
assert (Hbound : forall m s, scoreOf query m = Ok s ->
                             gt (volume24h m) 1000000 = true -> 3 <= s).
{ intros m s Hs Hv. pose proof (scoreOf_lower_bound query m _ Hs) as Hb.
  unfold volumeBonus in Hb. rewrite Hv in Hb.
  destruct (gt (volume24h m) 5000000); lia. }
split; [ | split; [ exact Hbound | split; [ | split ] ] ].
- intros m Hm Hv. destruct (scoreOf_textual query m Hm) as (t & d & _ & _ & Hs).
  eexists. split; [ exact Hs | ]. exact (Hbound m _ Hs Hv).
- intros Ht Hv.
  assert (Hq : Exists (fun m => qualifies query m = true) (marketList data)).
  { apply Exists_exists in Hv. destruct Hv as (m & Hm & Hv).
    apply Exists_exists. exists m. split; [ exact Hm | ].
    apply high_volume_qualifies; [ | exact Hv ].
    now apply (proj1 (Forall_forall _ _) Ht). }
  exists (ranking (positives query (marketList data) 0)),
         (pick (marketList data) (ranking (positives query (marketList data) 0))).
  split; [ apply findRelevantMarkets_ranking; [ now apply textual_scores | exact Hq ] | ].
  split; [ apply ranking_Ranked | ]. split; [ | apply picked_qualify ].
  intro Hnil. pose proof (picked_length query (marketList data)) as Hl.
  rewrite Hnil in Hl. apply filter_nonempty in Hq. cbn [List.length] in Hl. lia.
- intros res Hres Hfb.
  assert (Hok : Forall (fun m => exists s, scoreOf query m = Ok s) (marketList data)).
  { unfold findRelevantMarkets in Hres.
    destruct (scoreAll (toLowerCase query) (marketList data) 0 []) as [ss | e] eqn:E;
      [ | discriminate Hres ].
    exact (scoreAll_Ok_inv _ _ _ _ _ E). }
  rewrite (findRelevantMarkets_unfold data query Hok) in Hres.
  pose proof (picked_length query (marketList data)) as Hl.
  pose proof (picked_qualify query (marketList data)) as Hall.
  destruct (List.length (pick (marketList data)
                           (ranking (positives query (marketList data) 0)))) as [ | n] eqn:En;
    cbn [Nat.eqb] in Hres; apply Ok_inj in Hres; subst res.
  + split; [ reflexivity | ].
    apply (none_qualifies_low_volume query); [ exact Hok | ].
    apply filter_empty.
    destruct (List.length (filter (qualifies query) (marketList data)));
      [ reflexivity | discriminate Hl ].
  + exfalso. destruct Hfb as [Hnil | Hex].
    * rewrite Hnil in En. discriminate En.
    * apply Exists_exists in Hex. destruct Hex as (m & Hm & Hq).
      apply (proj1 (Forall_forall _ _) Hall) in Hm. congruence.
- intros searchScore Hs Hp.
  pose proof (scoreAll_Ok_inv _ _ _ _ _ Hs) as Hok.
  rewrite (scoreAll_positives query _ 0 [] Hok) in Hs. apply Ok_inj in Hs.
  cbn [app] in Hs. subst searchScore.
  assert (Hnone : Forall (fun m => qualifies query m = false) (marketList data)).
  { apply filter_empty.
    pose proof (picked_length query (marketList data)) as Hl.
    rewrite Hp in Hl. cbn [List.length] in Hl.
    destruct (List.length (filter (qualifies query) (marketList data))); [ reflexivity | ].
    discriminate Hl. }
  split; [ now apply findRelevantMarkets_fallback | ].
  now apply (none_qualifies_low_volume query).
Qed.

Lemma volume_bonus_independent_of_query_witness :
  (exists s, scoreOf "" snowTwoMillion = Ok s /\ 3 <= s) /\
  (exists entries res,
     findRelevantMarkets (snapshotOf [rainZero; snowTwoMillion; fogHalfMillion]) "bitcoin"
     = Ok res /\
     Ranked "bitcoin" (marketList (snapshotOf [rainZero; snowTwoMillion; fogHalfMillion]))
            entries res /\
     res <> [] /\
     Forall (fun m => qualifies "bitcoin" m = true) res) /\
  [hailNineHundredK; fogHalfMillion]
  = fallback (marketList (snapshotOf [rainZero; hailNineHundredK; fogHalfMillion])) /\
  Forall (fun m => gt (volume24h m) 1000000 = false)
         (marketList (snapshotOf [rainZero; hailNineHundredK; fogHalfMillion])).
Proof.
split; [ | split ].
- apply (proj1 (volume_bonus_independent_of_query (snapshotOf []) "") snowTwoMillion).
  + apply sample_textual.
  + reflexivity.
- apply (proj1 (proj2 (proj2 (volume_bonus_independent_of_query
           (snapshotOf [rainZero; snowTwoMillion; fogHalfMillion]) "bitcoin")))).
  + repeat constructor; discriminate.
  + apply Exists_cons_tl, Exists_cons_hd. reflexivity.
- apply (proj1 (proj2 (proj2 (proj2 (volume_bonus_independent_of_query
           (snapshotOf [rainZero; hailNineHundredK; fogHalfMillion]) "bitcoin"))))
           [hailNineHundredK; fogHalfMillion]).
  + vm_compute. reflexivity.
  + right. apply Exists_cons_hd. vm_compute. reflexivity.
Defined.

(** C10 as stated fails for a market without a title: with a 24h volume of
    2,000,000 it receives no score at all, for no query; scoring throws. *)
Lemma untitled_high_volume_market_gets_no_score :
  gt (volume24h (untitledMarket (Number 2000000))) 1000000 = true /\
  scoreOf "" (untitledMarket (Number 2000000)) = Throw TypeError /\
  scoreOf "rain" (untitledMarket (Number 2000000)) = Throw TypeError /\
  findRelevantMarkets (snapshotOf [untitledMarket (Number 2000000)]) "rain"
  = Throw TypeError.
Proof. repeat split; vm_compute; reflexivity. Qed.

(** For the query "who will win the premier league" the market titled
    "Manchester City to win Premier League" outranks the one titled
    "Fed interest rate decision", whatever the order of the list. *)
Theorem premier_league_outranks_fed :
  findRelevantMarkets (snapshotOf [fedTitle; cityTitle]) "who will win the premier league"
  = Ok [cityTitle; fedTitle] /\
  findRelevantMarkets (snapshotOf [cityTitle; fedTitle]) "who will win the premier league"
  = Ok [cityTitle; fedTitle] /\
  scoreOf "who will win the premier league" cityTitle = Ok 50 /\
  scoreOf "who will win the premier league" fedTitle = Ok 5.
Proof. repeat split; vm_compute; reflexivity. Qed.

End ScorerProps.

(** ** Response formatter: [createMarketCard] *)
Module Formatter.
Import JS.

Section Cards.

Variable numberToString : float -> string.

(** [formatVolume], local to [createMarketCard]. *)
Definition formatVolume (vol : value) : string :=
if negb (truthy vol) || strictEq vol 0 then "$0"
else if gt vol 1000000 then "$" ++ toFixed numberToString (toNumber vol / 1000000) 1 ++ "M"
else if gt vol 1000 then "$" ++ toFixed numberToString (toNumber vol / 1000) 1 ++ "K"
else "$" ++ toFixed numberToString (toNumber vol) 0.

(** [formatPrice], local to [createMarketCard]. *)
Definition formatPrice (price : float) : string :=
toFixed numberToString (price * 100) 1 ++ "%".

(** [outcome.price > 0.6 ? 'favored' : outcome.price < 0.4 ? 'underdog' : 'neutral']. *)
Definition outcomeClass (outcome : Outcome) : string :=
if (0.6 <? price outcome)%float then "favored"
else if (price outcome <? 0.4)%float then "underdog"
else "neutral".

(** What [createMarketCard] renders, without the markup around it. *)
Record Card : Set := {
  cardId : string;
  cardTitle : string;
  outcome1Class : string;
  outcome1Text : string;
  outcome2Class : string;
  outcome2Text : string;
  volume24hText : string;
  volumeTotalText : string;
  liquidityText : string
}.

(** [createMarketCard(market, index)]; reading [price] off a missing outcome,
    or [replace] off a missing title, throws. *)
Definition createMarketCard (market : Market) : result Card :=
match outcomes market with
| outcome1 :: outcome2 :: _ =>
    match title market with
    | Some t =>
        Ok {| cardId := id market;
              cardTitle := t;
              outcome1Class := outcomeClass outcome1;
              outcome1Text := name outcome1 ++ ": " ++ formatPrice (price outcome1);
              outcome2Class := outcomeClass outcome2;
              outcome2Text := name outcome2 ++ ": " ++ formatPrice (price outcome2);
              volume24hText := formatVolume (volume24h market);
              volumeTotalText := formatVolume (volumeTotal market);
              liquidityText := formatVolume (liquidity market) |}
    | None => Throw TypeError
    end
| _ => Throw TypeError
end.

(** The cards of [formatResponseWithMarkets], in order; the first card that
    throws ends the loop. *)
Fixpoint createMarketCards (relevantMarkets : list Market) : result (list Card) :=
match relevantMarkets with
| [] => Ok []
| market :: rest =>
    bind (createMarketCard market) (fun card =>
    bind (createMarketCards rest) (fun cards => Ok (card :: cards)))
end.

End Cards.

(** C5: [formatVolume] writes a volume above 1,000,000 as ["$X.XM"]
    (the volume over 1,000,000 with one decimal), one above 1,000 and up to
    1,000,000 as ["$X.XK"], any other number except zero without decimals,
    and zero or a missing volume as ["$0"]; so 250, 2,500, 3,400,000 and 0
    give ["$250"], ["$2.5K"], ["$3.4M"] and ["$0"]. *)
Theorem formatVolume_cases (numberToString : float -> string) :
  (forall x, (1000000 <? x)%float = true ->
     formatVolume numberToString (Number x)
     = "$" ++ toFixed numberToString (x / 1000000) 1 ++ "M") /\
  (forall x, (1000 <? x)%float = true -> (x <=? 1000000)%float = true ->
     formatVolume numberToString (Number x)
     = "$" ++ toFixed numberToString (x / 1000) 1 ++ "K") /\
  (forall x, (1000 <? x)%float = false -> (x =? 0)%float = false -> (x =? x)%float = true ->
     formatVolume numberToString (Number x) = "$" ++ toFixed numberToString x 0) /\
  (forall x, (x =? 0)%float = true -> formatVolume numberToString (Number x) = "$0") /\
  formatVolume numberToString Null = "$0" /\
  formatVolume numberToString Undefined = "$0" /\
  formatVolume numberToString (Number 250) = "$250" /\
  formatVolume numberToString (Number 2500) = "$2.5K" /\
  formatVolume numberToString (Number 3400000) = "$3.4M" /\
  formatVolume numberToString (Number 0) = "$0".
Proof.
repeat split; try (vm_compute; reflexivity).
- intros x H. unfold formatVolume, gt, strictEq, truthy. cbn [toNumber].
  pose proof (FloatFacts.ltb_trans 0 1000000 x eq_refl H) as H0.
  apply FloatFacts.ltb_not_eqb in H0. destruct H0 as [H0 Hx].
  rewrite H0, Hx, H. reflexivity.
- intros x H Hle. unfold formatVolume, gt, strictEq, truthy. cbn [toNumber].
  pose proof (FloatFacts.ltb_trans 0 1000 x eq_refl H) as H0.
  apply FloatFacts.ltb_not_eqb in H0. destruct H0 as [H0 Hx].
  rewrite H0, Hx, H, (FloatFacts.leb_not_ltb _ _ Hle). reflexivity.
- intros x H H0 Hx. unfold formatVolume, gt, strictEq, truthy. cbn [toNumber].
  rewrite H0, Hx, H. cbn [negb andb orb].
  destruct (1000000 <? x)%float eqn:E; [ | reflexivity ].
  rewrite (FloatFacts.ltb_trans 1000 1000000 x eq_refl E) in H. discriminate.
- intros x H. unfold formatVolume, strictEq, truthy. rewrite H. reflexivity.
Qed.

Lemma formatVolume_cases_witness :
  (1000000 <? 3400000)%float = true /\
  formatVolume (fun _ => "") (Number 3400000)
  = "$" ++ toFixed (fun _ => "") (3400000 / 1000000) 1 ++ "M".
Proof.
split; [ reflexivity | ].
apply (proj1 (formatVolume_cases (fun _ => "")) 3400000%float). reflexivity.
Defined.

(** C6: an outcome is classified [favored] exactly when its price is above
    0.6, [underdog] exactly when it is below 0.4, and [neutral] otherwise;
    the prices 0.65, 0.35 and 0.5 are favored, underdog and neutral. *)
Theorem outcomeClass_cases (outcome : Outcome) :
  (outcomeClass outcome = "favored" <-> (0.6 <? price outcome)%float = true) /\
  (outcomeClass outcome = "underdog" <-> (price outcome <? 0.4)%float = true) /\
  (outcomeClass outcome = "neutral" <->
     (0.6 <? price outcome)%float = false /\ (price outcome <? 0.4)%float = false) /\
  outcomeClass {| name := "Yes"; price := 0.65 |} = "favored" /\
  outcomeClass {| name := "Yes"; price := 0.35 |} = "underdog" /\
  outcomeClass {| name := "Yes"; price := 0.5 |} = "neutral".
Proof.
assert (Hexcl : (price outcome <? 0.4)%float = true -> (0.6 <? price outcome)%float = false).
{ intro H. apply FloatFacts.ltb_asym.
  exact (FloatFacts.ltb_trans _ 0.4 0.6 H eq_refl). }
unfold outcomeClass.
destruct (0.6 <? price outcome)%float eqn:E6;
  destruct (price outcome <? 0.4)%float eqn:E4;
  try (specialize (Hexcl eq_refl); discriminate Hexcl);
  repeat split; try reflexivity; try discriminate; intuition discriminate.
Qed.

End Formatter.

(** ** Key proxy: [api/get-api-key.js] *)
Module KeyProxy.

(** The part of the request the handler reads. *)
Record Request : Set := {
  method : string
}.

(** The JSON bodies the handler sends. *)
Inductive Body : Set :=
| ErrorBody (error : string)
| ApiKeyBody (apiKey : string).

Record Response : Set := {
  status : Z;
  json : Body
}.

(** [!apiKey] for [process.env.OPENROUTER_API_KEY]: the variable is unset
    ([None]) or the empty string. *)
Definition notConfigured (apiKey : option string) : bool :=
match apiKey with
| None => true
| Some EmptyString => true
| Some (String _ _) => false
end.

(** [handler(req, res)], given the environment variable; the response is what
    [res.status(...).json(...)] sends. *)
Definition handler (OPENROUTER_API_KEY : option string) (req : Request) : Response :=
if negb (String.eqb (method req) "GET") then
  {| status := 405; json := ErrorBody "Method not allowed" |}
else
  let apiKey := OPENROUTER_API_KEY in
  if notConfigured apiKey then
    {| status := 500; json := ErrorBody "API key not configured" |}
  else
    {| status := 200;
       json := ApiKeyBody (match apiKey with Some key => key | None => "" end) |}.

(** C7: the handler answers in exactly one of three ways: 405 with an error
    body for any method other than GET; 500 with an error body when the
    secret is not configured; 200 with the configured secret as [apiKey]
    otherwise.  The response depends on the method and the secret alone. *)
Theorem handler_three_responses (env : option string) (req : Request) :
  (method req <> "GET" ->
   handler env req = {| status := 405; json := ErrorBody "Method not allowed" |}) /\
  (method req = "GET" -> notConfigured env = true ->
   handler env req = {| status := 500; json := ErrorBody "API key not configured" |}) /\
  (method req = "GET" -> forall key, env = Some key -> key <> "" ->
   handler env req = {| status := 200; json := ApiKeyBody key |}) /\
  (method req <> "GET" \/
   (method req = "GET" /\ notConfigured env = true) \/
   (method req = "GET" /\ exists key, env = Some key /\ key <> "")).
Proof.
unfold handler. destruct (String.eqb_spec (method req) "GET") as [E | E]; cbn [negb].
- repeat split; try congruence.
  + intros _ H. now rewrite H.
  + intros _ key -> Hk. destruct key; [ congruence | reflexivity ].
  + right. destruct env as [[ | c k] | ]; cbn [notConfigured]; auto.
    right. split; [ exact E | ]. exists (String c k). split; [ reflexivity | discriminate ].
- repeat split; try congruence. now left.
Qed.

Lemma handler_three_responses_witness :
  handler (Some "sk-or-v1-test") {| method := "POST" |}
    = {| status := 405; json := ErrorBody "Method not allowed" |} /\
  handler None {| method := "GET" |}
    = {| status := 500; json := ErrorBody "API key not configured" |} /\
  handler (Some "sk-or-v1-test") {| method := "GET" |}
    = {| status := 200; json := ApiKeyBody "sk-or-v1-test" |}.
Proof.
split; [ | split ].
- apply (proj1 (handler_three_responses (Some "sk-or-v1-test") {| method := "POST" |})).
  discriminate.
- apply (proj1 (proj2 (handler_three_responses None {| method := "GET" |})));
    reflexivity.
- apply (proj1 (proj2 (proj2 (handler_three_responses (Some "sk-or-v1-test")
                                                        {| method := "GET" |}))));
    [ reflexivity | reflexivity | discriminate ].
Defined.

End KeyProxy.

(** ** Conversation controller: [sendMessage] and [analyzeSpecificMarket]

    The page is a single event loop.  An [async] function runs up to its
    first pending [await] in one go; the model call of [callOpenRouterAPI] is
    the only suspension point of a turn, and its settling is an event of its
    own.  The DOM (typing indicator, welcome message, scrolling) is not part
    of the state; the rendered markup of a turn is kept as its content. *)
Module Controller.
Import JS Formatter.

Inductive Sender : Set := user | bot.

(** What [addMessage] is given as [content]. *)
Inductive Content : Set :=
| Text (text : string)
| AnswerWithCards (aiResponse : string) (cards : list Card)
| DetailedAnalysis (aiResponse : string) (card : Card).

(** An entry of [chatHistory]. *)
Record Turn : Set := {
  sender : Sender;
  content : Content
}.

(** A model call in flight, with what its continuation holds on to. *)
Inductive Pending : Set :=
| AwaitAIResponse (relevantMarkets : list Market)
| AwaitDetailedAnalysis (market : Market).

(** The globals of the script, the value of the message box, and the model
    calls in flight (oldest first). *)
Record State : Set := {
  polymarketData : option Snapshot;
  chatHistory : list Turn;
  isLoading : bool;
  messageInput : string;
  pending : list Pending
}.

Definition withHistory (h : list Turn) (st : State) : State :=
{| polymarketData := polymarketData st; chatHistory := h; isLoading := isLoading st;
   messageInput := messageInput st; pending := pending st |}.

Definition withLoading (b : bool) (st : State) : State :=
{| polymarketData := polymarketData st; chatHistory := chatHistory st; isLoading := b;
   messageInput := messageInput st; pending := pending st |}.

Definition withInput (text : string) (st : State) : State :=
{| polymarketData := polymarketData st; chatHistory := chatHistory st;
   isLoading := isLoading st; messageInput := text; pending := pending st |}.

Definition withPending (p : list Pending) (st : State) : State :=
{| polymarketData := polymarketData st; chatHistory := chatHistory st;
   isLoading := isLoading st; messageInput := messageInput st; pending := p |}.

(** [addMessage(sender, content)]: [chatHistory.push({ sender, content })]. *)
Definition addMessage (sender : Sender) (content : Content) (st : State) : State :=
withHistory (chatHistory st ++ [ {| sender := sender; content := content |} ]) st.

(** The fixed text of the [catch] block of [sendMessage]. *)
Definition sendErrorText : string :=
"❌ Sorry, I encountered an error while processing your request. Please try again.".

(** The fixed text of the [catch] block of [analyzeSpecificMarket]. *)
Definition detailErrorText : string :=
"❌ Sorry, I couldn't analyze this specific market right now.".

Section Run.

Variable numberToString : float -> string.

(** [formatResponseWithMarkets(aiResponse, relevantMarkets)]. *)
Definition formatResponseWithMarkets (aiResponse : string) (relevantMarkets : list Market)
  : result Content :=
bind (createMarketCards numberToString relevantMarkets) (fun cards =>
Ok (AnswerWithCards aiResponse cards)).

(** The [catch] and [finally] blocks of [sendMessage]. *)
Definition sendFailed (st : State) : State :=
withLoading false (addMessage bot (Text sendErrorText) st).

(** [sendMessage()] once the model call has settled: [reply] is the text of
    the answer, or [None] when [callOpenRouterAPI] threw (network error,
    response not ok, malformed body). *)
Definition sendSettled (relevantMarkets : list Market) (reply : option string)
  (st : State) : State :=
match reply with
| Some aiResponse =>
    match formatResponseWithMarkets aiResponse relevantMarkets with
    | Ok response => withLoading false (addMessage bot response st)
    | Throw _ => sendFailed st
    end
| None => sendFailed st
end.

(** [sendMessage()] up to the model call.  When [findRelevantMarkets] throws,
    the promise of [getAIResponse] is rejected and the [catch] block runs
    before any other event. *)
Definition sendMessage (st : State) : State :=
if isLoading st then st
else
  let message := trim (messageInput st) in
  if String.eqb message "" then st
  else
    match polymarketData st with
    | None => st
    | Some data =>
        let st := withInput "" st in
        let st := addMessage user (Text message) st in
        let st := withLoading true st in
        match Scorer.findRelevantMarkets data message with
        | Ok relevantMarkets =>
            withPending (pending st ++ [AwaitAIResponse relevantMarkets]) st
        | Throw _ => sendFailed st
        end
    end.

(** [askQuestion(question)]. *)
Definition askQuestion (question : string) (st : State) : State :=
sendMessage (withInput question st).

(** [analyzeSpecificMarket(marketId, marketTitle)] up to the model call; with
    no snapshot or no [markets] array the lookup throws and nothing happens. *)
Definition analyzeSpecificMarket (marketId marketTitle : string) (st : State) : State :=
match polymarketData st with
| None => st
| Some data =>
    match markets data with
    | None => st
    | Some ms =>
        match find (fun m => String.eqb (id m) marketId) ms with
        | None => st
        | Some market =>
            let st := addMessage user (Text ("Tell me more about: " ++ marketTitle)) st in
            withPending (pending st ++ [AwaitDetailedAnalysis market]) st
        end
    end
end.

(** [analyzeSpecificMarket] once the model call has settled. *)
Definition analysisSettled (market : Market) (reply : option string) (st : State) : State :=
match reply with
| Some aiResponse =>
    match createMarketCard numberToString market with
    | Ok card => addMessage bot (DetailedAnalysis aiResponse card) st
    | Throw _ => addMessage bot (Text detailErrorText) st
    end
| None => addMessage bot (Text detailErrorText) st
end.

Fixpoint removeNth {A : Type} (k : nat) (l : list A) : list A :=
match l, k with
| [], _ => []
| _ :: l', O => l'
| x :: l', S k' => x :: removeNth k' l'
end.

(** What happens on the page. *)
Inductive Event : Set :=
| Typed (text : string)
| Send
| Ask (question : string)
| DrillDown (marketId marketTitle : string)
| Settled (k : nat) (reply : option string).

Definition step (st : State) (ev : Event) : State :=
match ev with
| Typed text => withInput text st
| Send => sendMessage st
| Ask question => askQuestion question st
| DrillDown marketId marketTitle => analyzeSpecificMarket marketId marketTitle st
| Settled k reply =>
    match nth_error (pending st) k with
    | Some (AwaitAIResponse relevantMarkets) =>
        sendSettled relevantMarkets reply (withPending (removeNth k (pending st)) st)
    | Some (AwaitDetailedAnalysis market) =>
        analysisSettled market reply (withPending (removeNth k (pending st)) st)
    | None => st
    end
end.

Definition run (st : State) (evs : list Event) : State := fold_left step evs st.

(** A send is accepted in [st]: it records the user's turn. *)
Definition accepted (st : State) : Prop :=
exists turns,
  chatHistory (sendMessage st)
  = (chatHistory st
     ++ {| sender := user; content := Text (trim (messageInput st)) |} :: turns)%list.

End Run.

(** *** Failure of the model call *)

Lemma sendMessage_accepted (st : State) :
  isLoading st = false -> polymarketData st <> None -> trim (messageInput st) <> "" ->
  accepted st.
Proof.
intros Hl Hd Hm. unfold accepted, sendMessage. rewrite Hl.
destruct (String.eqb_spec (trim (messageInput st)) "") as [E | _]; [ contradiction | ].
destruct (polymarketData st) as [data | ]; [ | contradiction ].
destruct (Scorer.findRelevantMarkets data (trim (messageInput st))) as [ms | e].
- exists []. reflexivity.
- exists [ {| sender := bot; content := Text sendErrorText |} ].
  cbn. now rewrite <- app_assoc.
Qed.

(** C8: when the model call of a send fails, the turns recorded so far stay
    as they are, exactly one turn with the fixed error text is appended, and
    the busy flag is cleared, so that the next send is accepted. *)
Theorem model_call_failure_recovers (numberToString : float -> string) (st : State)
  (k : nat) (relevantMarkets : list Market) :
  nth_error (pending st) k = Some (AwaitAIResponse relevantMarkets) ->
  chatHistory (step numberToString st (Settled k None))
  = (chatHistory st ++ [ {| sender := bot; content := Text sendErrorText |} ])%list /\
  isLoading (step numberToString st (Settled k None)) = false /\
  pending (step numberToString st (Settled k None)) = removeNth k (pending st) /\
  forall text, polymarketData st <> None -> trim text <> "" ->
    accepted (step numberToString (step numberToString st (Settled k None)) (Typed text)).
Proof.
intro H. unfold step. rewrite H. cbn.
repeat split. intros text Hd Ht.
apply sendMessage_accepted; cbn; auto.
Qed.

(** The page with the snapshot loaded and nothing going on. *)
Definition idle (ms : list Market) : State :=
{| polymarketData := Some (ScorerProps.snapshotOf ms); chatHistory := [];
   isLoading := false; messageInput := ""; pending := [] |}.

(** The page after "bitcoin odds" was sent: the model call is in flight. *)
Definition waiting (numberToString : float -> string) : State :=
run numberToString (idle [ScorerProps.snowTwoMillion; ScorerProps.fogHalfMillion])
    [Typed "bitcoin odds"; Send].

Lemma model_call_failure_recovers_witness :
  nth_error (pending (waiting (fun _ => ""))) 0
    = Some (AwaitAIResponse [ScorerProps.snowTwoMillion]) /\
  chatHistory (step (fun _ => "") (waiting (fun _ => "")) (Settled 0 None))
    = [ {| sender := user; content := Text "bitcoin odds" |};
        {| sender := bot; content := Text sendErrorText |} ] /\
  isLoading (step (fun _ => "") (waiting (fun _ => "")) (Settled 0 None)) = false.
Proof.
assert (H : nth_error (pending (waiting (fun _ => ""))) 0
            = Some (AwaitAIResponse [ScorerProps.snowTwoMillion]))
  by (vm_compute; reflexivity).
split; [ exact H | ].
destruct (model_call_failure_recovers (fun _ => "") _ _ _ H) as (Hh & Hl & _).
split; [ | exact Hl ].
rewrite Hh. vm_compute. reflexivity.
Defined.

(** *** One request at a time *)

Lemma sendMessage_dropped_while_busy (st : State) :
  isLoading st = true ->
  sendMessage st = st /\
  forall question,
    chatHistory (askQuestion question st) = chatHistory st /\
    pending (askQuestion question st) = pending st.
Proof.
intro H. unfold askQuestion, sendMessage. cbn [isLoading withInput].
rewrite H. repeat split.
Qed.

Lemma analyzeSpecificMarket_unguarded (st : State) (data : Snapshot) (ms : list Market)
  (market : Market) (marketId marketTitle : string) :
  polymarketData st = Some data -> markets data = Some ms ->
  find (fun m => String.eqb (id m) marketId) ms = Some market ->
  chatHistory (analyzeSpecificMarket marketId marketTitle st)
  = (chatHistory st
     ++ [ {| sender := user; content := Text ("Tell me more about: " ++ marketTitle) |} ])%list /\
  pending (analyzeSpecificMarket marketId marketTitle st)
  = (pending st ++ [AwaitDetailedAnalysis market])%list.
Proof.
intros Hd Hm Hf. unfold analyzeSpecificMarket. rewrite Hd, Hm, Hf. split; reflexivity.
Qed.

(** The page after a first question was answered with a market card and a
    second question was sent: its model call is in flight. *)
Definition busy (numberToString : float -> string) : State :=
run numberToString (idle [ScorerProps.snowTwoMillion; ScorerProps.fogHalfMillion])
    [Typed "bitcoin odds"; Send; Settled 0 (Some "The markets look calm.");
     Typed "and ethereum?"; Send].

(** C9 fails for the drill-down: with a send in flight and the busy flag set,
    a further question is dropped (no turn, no model call), but a click on
    the market card of the earlier answer runs [analyzeSpecificMarket], which
    records a turn and starts a second model call. *)
Theorem drill_down_ignores_busy_flag (numberToString : float -> string) :
  isLoading (busy numberToString) = true /\
  pending (busy numberToString) = [AwaitAIResponse [ScorerProps.snowTwoMillion]] /\
  List.length (chatHistory (busy numberToString)) = 3%nat /\
  chatHistory (step numberToString (busy numberToString) (Ask "and solana?"))
  = chatHistory (busy numberToString) /\
  pending (step numberToString (busy numberToString) (Ask "and solana?"))
  = pending (busy numberToString) /\
  chatHistory (step numberToString (busy numberToString)
                    (DrillDown "Snow in Oslo" "Snow in Oslo"))
  = (chatHistory (busy numberToString)
     ++ [ {| sender := user; content := Text "Tell me more about: Snow in Oslo" |} ])%list /\
  pending (step numberToString (busy numberToString)
                (DrillDown "Snow in Oslo" "Snow in Oslo"))
  = [ AwaitAIResponse [ScorerProps.snowTwoMillion];
      AwaitDetailedAnalysis ScorerProps.snowTwoMillion ].
Proof. repeat split; vm_compute; reflexivity. Qed.

(** *** Invariants of the controller *)

(** [chatHistory] is append-only: no event changes or removes a recorded turn. *)
Theorem chatHistory_append_only (numberToString : float -> string) (st : State) (ev : Event) :
  exists turns, chatHistory (step numberToString st ev) = (chatHistory st ++ turns)%list.
Proof.
destruct ev as [text | | question | marketId marketTitle | k reply]; cbn [step].
- exists []. cbn. now rewrite app_nil_r.
- unfold sendMessage. destruct (isLoading st); [ exists []; now rewrite app_nil_r | ].
  destruct (String.eqb _ ""); [ exists []; now rewrite app_nil_r | ].
  destruct (polymarketData st) as [data | ]; [ | exists []; now rewrite app_nil_r ].
  destruct (Scorer.findRelevantMarkets data _); cbn.
  + eexists. reflexivity.
  + rewrite <- app_assoc. eexists. reflexivity.
- unfold askQuestion, sendMessage. cbn [isLoading withInput messageInput polymarketData].
  destruct (isLoading st); [ exists []; cbn; now rewrite app_nil_r | ].
  destruct (String.eqb _ ""); [ exists []; cbn; now rewrite app_nil_r | ].
  destruct (polymarketData st) as [data | ]; [ | exists []; cbn; now rewrite app_nil_r ].
  destruct (Scorer.findRelevantMarkets data _); cbn.
  + eexists. reflexivity.
  + rewrite <- app_assoc. eexists. reflexivity.
- unfold analyzeSpecificMarket.
  destruct (polymarketData st) as [data | ]; [ | exists []; now rewrite app_nil_r ].
  destruct (markets data) as [ms | ]; [ | exists []; now rewrite app_nil_r ].
  destruct (find _ ms); [ | exists []; now rewrite app_nil_r ].
  cbn. eexists. reflexivity.
- destruct (nth_error (pending st) k) as [[relevantMarkets | market] | ];
    [ | | exists []; now rewrite app_nil_r ].
  + unfold sendSettled, sendFailed. destruct reply as [aiResponse | ].
    * destruct (formatResponseWithMarkets _ _ _); cbn; eexists; reflexivity.
    * cbn. eexists. reflexivity.
  + unfold analysisSettled. destruct reply as [aiResponse | ].
    * destruct (createMarketCard _ _); cbn; eexists; reflexivity.
    * cbn. eexists. reflexivity.
Qed.

(** The model calls of [sendMessage] in flight. *)
Definition isSend (p : Pending) : bool :=
match p with
| AwaitAIResponse _ => true
| AwaitDetailedAnalysis _ => false
end.

Definition sendsInFlight (st : State) : nat := List.length (filter isSend (pending st)).

(** The busy flag counts the sends in flight. *)
Definition singleFlight (st : State) : Prop :=
sendsInFlight st = if isLoading st then 1%nat else 0%nat.

Lemma removeNth_filter_length {A : Type} (f : A -> bool) (k : nat) (l : list A) (x : A) :
  nth_error l k = Some x ->
  (List.length (filter f (removeNth k l)) + (if f x then 1 else 0))%nat
  = List.length (filter f l).
Proof.
revert k. induction l as [ | y l IH]; intros [ | k] H; cbn in H; try discriminate.
- injection H as ->. cbn [removeNth filter]. destruct (f x); cbn [List.length]; lia.
- cbn [removeNth filter]. specialize (IH k H).
  destruct (f y); cbn [List.length]; lia.
Qed.

Lemma singleFlight_step (numberToString : float -> string) (st : State) (ev : Event) :
  singleFlight st -> singleFlight (step numberToString st ev).
Proof.
unfold singleFlight, sendsInFlight. intro H.
assert (Hsend : forall st0, List.length (filter isSend (pending st0))
                            = (if isLoading st0 then 1%nat else 0%nat) ->
                List.length (filter isSend (pending (sendMessage st0)))
                = if isLoading (sendMessage st0) then 1%nat else 0%nat).
{ intros st0 H0. unfold sendMessage. destruct (isLoading st0) eqn:El; [ now rewrite El | ].
  destruct (String.eqb _ ""); [ now rewrite El | ].
  destruct (polymarketData st0) as [data | ]; [ | now rewrite El ].
  destruct (Scorer.findRelevantMarkets data _); cbn.
  - rewrite filter_app, length_app, H0. reflexivity.
  - exact H0. }
destruct ev as [text | | question | marketId marketTitle | k reply]; cbn [step].
- exact H.
- now apply Hsend.
- unfold askQuestion. now apply Hsend.
- unfold analyzeSpecificMarket.
  destruct (polymarketData st) as [data | ]; [ | exact H ].
  destruct (markets data) as [ms | ]; [ | exact H ].
  destruct (find _ ms); [ | exact H ].
  cbn. rewrite filter_app, length_app, H. cbn. lia.
- destruct (nth_error (pending st) k) as [[relevantMarkets | market] | ] eqn:E;
    [ | | exact H ];
    pose proof (removeNth_filter_length isSend k (pending st) _ E) as Hk;
    cbn [isSend] in Hk.
  + assert (Hz : List.length (filter isSend (removeNth k (pending st))) = 0%nat)
      by (destruct (isLoading st); lia).
    unfold sendSettled, sendFailed. destruct reply as [aiResponse | ].
    * destruct (formatResponseWithMarkets _ _ _); cbn; exact Hz.
    * cbn. exact Hz.
  + assert (Hz : List.length (filter isSend (removeNth k (pending st)))
                 = if isLoading st then 1%nat else 0%nat) by lia.
    unfold analysisSettled. destruct reply as [aiResponse | ].
    * destruct (createMarketCard _ _); cbn; exact Hz.
    * cbn. exact Hz.
Qed.

(** At most one model call of [sendMessage] is in flight, whatever happens on
    the page: the busy flag is set exactly while there is one. *)
Theorem sends_are_single_flight (numberToString : float -> string) (ms : list Market)
  (evs : list Event) :
  singleFlight (run numberToString (idle ms) evs) /\
  (sendsInFlight (run numberToString (idle ms) evs) <= 1)%nat.
Proof.
assert (H : singleFlight (run numberToString (idle ms) evs)).
{ unfold run. generalize (idle ms), (eq_refl : singleFlight (idle ms)).
  induction evs as [ | ev evs IH]; intros st Hst; [ exact Hst | ].
  cbn [fold_left]. apply IH. now apply singleFlight_step. }
split; [ exact H | ].
unfold singleFlight in H. rewrite H. destruct (isLoading _); lia.
Qed.

End Controller.

(** ** More about the relevance scorer *)
Module ScorerMore.
Import JS Scorer SortFacts ScorerProps.

#[local] Open Scope Z_scope.

(** *** What is returned comes from the snapshot *)

Lemma increasing_NoDup (es : list (nat * Z)) :
  StronglySorted (fun x y => (fst x < fst y)%nat) es -> NoDup (map fst es).
Proof.
induction 1 as [ | e es Hs IH He]; cbn [map]; constructor; [ | exact IH ].
intro Hin. apply in_map_iff in Hin. destruct Hin as (e' & Heq & Hin).
apply (proj1 (Forall_forall _ _) He) in Hin. lia.
Qed.

Lemma ranking_positions_NoDup (query : string) (ms : list Market) :
  NoDup (map fst (ranking (positives query ms 0))).
Proof.
unfold ranking.
apply NoDup_app_remove_r with (l' := map fst (skipn 6 (sort byScore (positives query ms 0)))).
rewrite <- map_app, firstn_skipn.
apply Permutation_NoDup with (l := map fst (positives query ms 0)).
- apply Permutation_map. symmetry. apply sort_perm.
- apply increasing_NoDup, positives_increasing.
Qed.

Lemma Forall2_positions (ms : list Market) (P : nat * Z -> Market -> Prop)
  (es : list (nat * Z)) (res : list Market) :
  Forall2 (fun e m => nth_error ms (fst e) = Some m /\ P e m) es res ->
  Forall2 (fun i m => nth_error ms i = Some m) (map fst es) res.
Proof.
induction 1 as [ | e m es res [Hn _] _ IH]; cbn [map]; constructor; auto.
Qed.

Lemma filter_partition {A : Type} (p : A -> bool) (l : list A) :
  Permutation (filter p l ++ filter (fun x => negb (p x)) l) l.
Proof.
induction l as [ | x l IH]; cbn [filter]; [ constructor | ].
destruct (p x); cbn [negb app].
- now constructor.
- rewrite <- Permutation_middle. now constructor.
Qed.

(** The members of a part of a permutation of [ms] stand at distinct
    positions of [ms]. *)
Lemma part_positions {A : Type} (ms res rest : list A) :
  Permutation (res ++ rest) ms ->
  exists positions, NoDup positions /\
                    Forall2 (fun i m => nth_error ms i = Some m) positions res.
Proof.
intro H. symmetry in H. apply Permutation_nth_error in H.
destruct H as (_ & f & Hinj & Hf).
exists (map f (seq 0 (List.length res))). split.
- apply Finite.Injective_map_NoDup; [ exact Hinj | apply seq_NoDup ].
- assert (Hgen : forall pre l, Forall2 (fun i m => nth_error (pre ++ l ++ rest) i = Some m)
                                       (seq (List.length pre) (List.length l)) l).
  { intros pre l. revert pre. induction l as [ | x l IH]; intro pre; cbn [List.length seq];
      constructor.
    - rewrite nth_error_app2 by lia. now rewrite Nat.sub_diag.
    - specialize (IH (pre ++ [x])%list). rewrite length_app in IH. cbn in IH.
      rewrite Nat.add_1_r, <- app_assoc in IH. exact IH. }
  specialize (Hgen [] res). cbn [app List.length] in Hgen.
  revert Hgen. generalize (seq 0 (List.length res)).
  intros positions Hp. induction Hp as [ | i m positions l Him _ IH]; cbn [map];
    constructor; [ | exact IH ].
  now rewrite <- Hf.
Qed.

Lemma fallback_positions (ms : list Market) :
  exists positions, NoDup positions /\
                    Forall2 (fun i m => nth_error ms i = Some m) positions (fallback ms).
Proof.
destruct (fallback_spec ms) as (_ & _ & _ & rest & Hperm & _).
apply part_positions
  with (rest := (rest ++ filter (fun m => negb (gt (volume24h m) 0)) ms)%list).
rewrite app_assoc, Hperm. apply filter_partition.
Qed.

Lemma selected_from_snapshot (data : Snapshot) (query : string)
  (res : list Market) :
  findRelevantMarkets data query = Ok res ->
  (List.length res <= 6)%nat /\
  exists positions,
    NoDup positions /\
    Forall2 (fun i m => nth_error (marketList data) i = Some m) positions res.
Proof.
intro H.
assert (Hok : Forall (fun m => exists s, scoreOf query m = Ok s) (marketList data)).
{ unfold findRelevantMarkets in H.
  destruct (scoreAll (toLowerCase query) (marketList data) 0 []) as [ss | e] eqn:E;
    [ | discriminate H ].
  exact (scoreAll_Ok_inv _ _ _ _ _ E). }
rewrite (findRelevantMarkets_unfold data query Hok) in H.
destruct (_ =? 0)%nat; apply Ok_inj in H; subst res.
- split; [ pose proof (fallback_spec (marketList data)) as (Hl & _); lia | ].
  apply fallback_positions.
- split; [ rewrite picked_length; lia | ].
  exists (map fst (ranking (positives query (marketList data) 0))). split.
  + apply ranking_positions_NoDup.
  + apply Forall2_positions with (1 := ranking_picked query (marketList data)).
Qed.

(** Whatever the query, the scorer returns at most six markets, and they are
    the markets found at distinct positions of the snapshot: no market is made
    up, and none is returned more often than the snapshot lists it. *)
Theorem findRelevantMarkets_selects_positions (data : Snapshot) (query : string)
  (res : list Market) :
  findRelevantMarkets data query = Ok res ->
  (List.length res <= 6)%nat /\
  exists positions,
    NoDup positions /\
    Forall2 (fun i m => nth_error (marketList data) i = Some m) positions res.
Proof. exact (selected_from_snapshot data query res). Qed.

Lemma findRelevantMarkets_selects_positions_witness :
  findRelevantMarkets (snapshotOf [fedTitle; cityTitle; rainSmall])
                      "Who will win the Premier League" = Ok [cityTitle; fedTitle; rainSmall] /\
  (List.length [cityTitle; fedTitle; rainSmall] <= 6)%nat /\
  exists positions,
    NoDup positions /\
    Forall2 (fun i m => nth_error (marketList (snapshotOf [fedTitle; cityTitle; rainSmall])) i
                        = Some m) positions [cityTitle; fedTitle; rainSmall].
Proof.
assert (H : findRelevantMarkets (snapshotOf [fedTitle; cityTitle; rainSmall])
                                "Who will win the Premier League" = Ok [cityTitle; fedTitle; rainSmall])
  by (vm_compute; reflexivity).
split; [ exact H | ].
exact (findRelevantMarkets_selects_positions _ _ _ H).
Defined.

(** *** When a market is relevant, and how much a hit weighs *)

(** A query token of more than two characters occurs in the title. *)
Definition titleHit (query : string) (t : string) : Prop :=
Exists (fun w => includes (toLowerCase t) w = true) (queryWords (toLowerCase query)).

(** A query token of more than two characters occurs in the description. *)
Definition descriptionHit (query : string) (d : string) : Prop :=
Exists (fun w => includes (toLowerCase d) w = true) (queryWords (toLowerCase query)).

(** A category keyword occurs in the query and in the title or description. *)
Definition keywordHit (query : string) (t d : string) : Prop :=
Exists (fun k => includes (toLowerCase query) k
                 && (includes (toLowerCase t) k || includes (toLowerCase d) k) = true)
       keywords.

Lemma count_positive {A : Type} (p : A -> bool) (l : list A) :
  0 < count p l <-> Exists (fun x => p x = true) l.
Proof.
induction l as [ | x l IH].
- unfold count. cbn. split; [ lia | intro H; inversion H ].
- rewrite count_cons. pose proof (count_nonneg p l) as Hn. split.
  + intro H. destruct (p x) eqn:E; [ now left | right; apply IH; lia ].
  + intro H. inversion H as [ ? ? Hx | ? ? Hl ]; subst.
    * rewrite Hx. lia.
    * apply IH in Hl. destruct (p x); lia.
Qed.

Lemma count_hit {A : Type} (p : A -> bool) (l : list A) :
  Exists (fun x => p x = true) l -> 1 <= count p l.
Proof. intro H. apply count_positive in H. lia. Qed.

Lemma count_miss {A : Type} (p : A -> bool) (l : list A) :
  ~ Exists (fun x => p x = true) l -> count p l = 0.
Proof.
intro H. pose proof (count_nonneg p l) as Hn.
destruct (Z.eq_dec (count p l) 0) as [E | E]; [ exact E | ].
exfalso. apply H, count_positive. lia.
Qed.

(** A market enters the ranking exactly when a query token occurs in its
    title or description, or a category keyword occurs in the query and in
    its title or description, or its 24h volume is above 1,000,000. *)
Theorem qualifies_iff_hit_or_volume (query : string) (m : Market) (t d : string) :
  title m = Some t -> description m = Some d ->
  (qualifies query m = true <->
   titleHit query t \/ descriptionHit query d \/ keywordHit query t d \/
   gt (volume24h m) 1000000 = true).
Proof.
intros Ht Hd. unfold qualifies. rewrite (scoreOf_stated query m t d Ht Hd).
rewrite Z.ltb_lt. unfold statedScore, titleHit, descriptionHit, keywordHit.
set (ct := count (includes (toLowerCase t)) (queryWords (toLowerCase query))).
set (cd := count (includes (toLowerCase d)) (queryWords (toLowerCase query))).
set (ck := count (fun k => includes (toLowerCase query) k
                           && (includes (toLowerCase t) k || includes (toLowerCase d) k))
                 keywords).
pose proof (count_nonneg (includes (toLowerCase t)) (queryWords (toLowerCase query))) as H1.
pose proof (count_nonneg (includes (toLowerCase d)) (queryWords (toLowerCase query))) as H2.
pose proof (count_nonneg (fun k => includes (toLowerCase query) k
             && (includes (toLowerCase t) k || includes (toLowerCase d) k)) keywords) as H3.
fold ct in H1. fold cd in H2. fold ck in H3.
pose proof (volumeBonus_nonneg (volume24h m)) as H4.
rewrite <- !count_positive, <- volumeBonus_positive. fold ct cd ck. lia.
Qed.

Lemma qualifies_iff_hit_or_volume_witness :
  title cityTitle = Some "Manchester City to win Premier League" /\
  description cityTitle = Some "EPL winner" /\
  (qualifies "premier league odds" cityTitle = true <->
   titleHit "premier league odds" "Manchester City to win Premier League" \/
   descriptionHit "premier league odds" "EPL winner" \/
   keywordHit "premier league odds" "Manchester City to win Premier League" "EPL winner" \/
   gt (volume24h cityTitle) 1000000 = true).
Proof.
split; [ reflexivity | split; [ reflexivity | ] ].
apply qualifies_iff_hit_or_volume; reflexivity.
Defined.

(** The weights: a query token in the title is worth at least 10, one in the
    description at least 5, a category keyword at least 15, and a market
    without any hit scores its volume bonus, at most 5.  So a market with a
    title or keyword hit always scores above a market that has its volume
    only. *)
Theorem text_hit_outweighs_volume (query : string) (a b : Market) (ta da tb db : string) :
  title a = Some ta -> description a = Some da ->
  title b = Some tb -> description b = Some db ->
  ~ titleHit query tb -> ~ descriptionHit query db -> ~ keywordHit query tb db ->
  exists sa sb,
    scoreOf query a = Ok sa /\ scoreOf query b = Ok sb /\
    sb = volumeBonus (volume24h b) /\ 0 <= sb <= 5 /\
    (titleHit query ta -> 10 <= sa /\ sb < sa) /\
    (descriptionHit query da -> 5 <= sa /\ sb <= sa) /\
    (keywordHit query ta da -> 15 <= sa /\ sb < sa).
Proof.
intros Hta Hda Htb Hdb Nt Nd Nk.
exists (statedScore query ta da (volume24h a)), (statedScore query tb db (volume24h b)).
split; [ now apply scoreOf_stated | ]. split; [ now apply scoreOf_stated | ].
assert (Hb : statedScore query tb db (volume24h b) = volumeBonus (volume24h b)).
{ unfold statedScore. unfold titleHit in Nt. unfold descriptionHit in Nd.
  unfold keywordHit in Nk.
  rewrite (count_miss _ _ Nt), (count_miss _ _ Nd), (count_miss _ _ Nk). lia. }
rewrite Hb.
assert (Hv : 0 <= volumeBonus (volume24h b) <= 5).
{ unfold volumeBonus. destruct (gt _ 1000000), (gt _ 5000000); lia. }
split; [ reflexivity | ]. split; [ exact Hv | ].
unfold statedScore.
pose proof (count_nonneg (includes (toLowerCase ta)) (queryWords (toLowerCase query))) as H1.
pose proof (count_nonneg (includes (toLowerCase da)) (queryWords (toLowerCase query))) as H2.
pose proof (count_nonneg (fun k => includes (toLowerCase query) k
            && (includes (toLowerCase ta) k || includes (toLowerCase da) k)) keywords) as H3.
pose proof (volumeBonus_nonneg (volume24h a)) as H4.
split; [ | split ]; intro Hhit; apply count_hit in Hhit; unfold titleHit, descriptionHit, keywordHit in *; lia.
Qed.

Lemma text_hit_outweighs_volume_witness :
  exists sa sb,
    scoreOf "premier league odds" cityTitle = Ok sa /\
    scoreOf "premier league odds" fedTitle = Ok sb /\
    sb = volumeBonus (volume24h fedTitle) /\ 0 <= sb <= 5 /\
    (titleHit "premier league odds" "Manchester City to win Premier League" ->
     10 <= sa /\ sb < sa) /\
    (descriptionHit "premier league odds" "EPL winner" -> 5 <= sa /\ sb <= sa) /\
    (keywordHit "premier league odds" "Manchester City to win Premier League" "EPL winner" ->
     15 <= sa /\ sb < sa).
Proof.
assert (Hex : forall (p : string -> bool) (l : list string),
          existsb p l = false -> ~ Exists (fun x => p x = true) l).
{ intros p l H He. apply Exists_exists in He. destruct He as (x & Hx & Hp).
  assert (Ht : existsb p l = true) by (apply existsb_exists; eauto).
  congruence. }
apply (text_hit_outweighs_volume "premier league odds" cityTitle fedTitle
         "Manchester City to win Premier League" "EPL winner"
         "Fed interest rate decision" "FOMC meeting");
  try reflexivity; apply Hex; vm_compute; reflexivity.
Defined.

(** *** Letter case *)

Lemma lower_char_idempotent (c : ascii) : lower_char (lower_char c) = lower_char c.
Proof.
destruct c as [[ | ] [ | ] [ | ] [ | ] [ | ] [ | ] [ | ] [ | ]]; reflexivity.
Qed.

Lemma toLowerCase_idempotent (s : string) : toLowerCase (toLowerCase s) = toLowerCase s.
Proof.
induction s as [ | c s IH]; cbn [toLowerCase]; [ reflexivity | ].
now rewrite lower_char_idempotent, IH.
Qed.

(** A market with its title and description in lower case. *)
Definition lowerTexts (m : Market) : Market :=
{| id := id m;
   title := option_map toLowerCase (title m);
   description := option_map toLowerCase (description m);
   outcomes := outcomes m;
   volume24h := volume24h m; volumeTotal := volumeTotal m; liquidity := liquidity m |}.

(** Matching ignores letter case: writing the query in lower case changes
    nothing in the result, and writing a market's title and description in
    lower case changes nothing in its score. *)
Theorem matching_ignores_case (data : Snapshot) (query : string) (m : Market) :
  findRelevantMarkets data (toLowerCase query) = findRelevantMarkets data query /\
  scoreOf (toLowerCase query) m = scoreOf query m /\
  scoreOf query (lowerTexts m) = scoreOf query m.
Proof.
repeat split.
- unfold findRelevantMarkets. now rewrite toLowerCase_idempotent.
- unfold scoreOf. now rewrite toLowerCase_idempotent.
- unfold scoreOf, scoreMarket, lowerTexts. cbn [title description].
  destruct (title m) as [t | ]; cbn [option_map]; [ | reflexivity ].
  destruct (description m) as [d | ]; cbn [option_map]; [ | reflexivity ].
  rewrite !toLowerCase_idempotent. f_equal.
Qed.

End ScorerMore.

(** ** More about the market cards *)
Module CardsMore.
Import JS Formatter.

(** The card of a market can be rendered: it has a title and two outcomes. *)
Definition renderable (m : Market) : Prop :=
title m <> None /\ (2 <= List.length (outcomes m))%nat.

Lemma createMarketCard_renderable (numberToString : float -> string) (m : Market) :
  renderable m ->
  exists card, createMarketCard numberToString m = Ok card /\
               cardId card = id m /\ title m = Some (cardTitle card).
Proof.
intros [Ht Ho]. unfold createMarketCard.
destruct (outcomes m) as [ | o1 [ | o2 os]]; cbn in Ho; try lia.
destruct (title m) as [t | ]; [ | congruence ].
eexists. split; [ reflexivity | ]. split; reflexivity.
Qed.

Lemma createMarketCard_not_renderable (numberToString : float -> string) (m : Market) :
  ~ renderable m -> createMarketCard numberToString m = Throw TypeError.
Proof.
intro H. unfold createMarketCard, renderable in *.
destruct (outcomes m) as [ | o1 [ | o2 os]]; try reflexivity.
destruct (title m) as [t | ]; [ | reflexivity ].
exfalso. apply H. split; [ discriminate | cbn; lia ].
Qed.

Lemma renderable_dec (m : Market) : renderable m \/ ~ renderable m.
Proof.
unfold renderable. destruct (title m) as [t | ].
- destruct (le_lt_dec 2 (List.length (outcomes m))) as [H | H].
  + left. split; [ discriminate | exact H ].
  + right. intros [_ H']. lia.
- right. intros [H' _]. congruence.
Qed.

Lemma createMarketCards_renderable (numberToString : float -> string) (ms : list Market) :
  Forall renderable ms ->
  exists cards,
    createMarketCards numberToString ms = Ok cards /\
    List.length cards = List.length ms /\
    map cardId cards = map id ms /\
    map (fun c => Some (cardTitle c)) cards = map title ms.
Proof.
induction 1 as [ | m ms Hm _ IH]; cbn [createMarketCards].
- exists []. repeat split.
- destruct (createMarketCard_renderable numberToString m Hm) as (card & Hc & Hid & Ht).
  destruct IH as (cards & Hcs & Hl & Hids & Hts).
  exists (card :: cards). rewrite Hc, Hcs. cbn.
  rewrite Hl, Hid, Hids, Hts, Ht. repeat split.
Qed.

(** The cards of an answer are rendered exactly when every market has a
    title and two outcomes; there is then one card per market, in the order
    of the markets, carrying the market's id and title.  A single market
    without a title or with fewer than two outcomes makes the whole rendering
    throw. *)
Theorem createMarketCards_all_or_nothing (numberToString : float -> string)
  (ms : list Market) :
  (Forall renderable ms ->
   exists cards,
     createMarketCards numberToString ms = Ok cards /\
     List.length cards = List.length ms /\
     map cardId cards = map id ms /\
     map (fun c => Some (cardTitle c)) cards = map title ms) /\
  (Exists (fun m => ~ renderable m) ms ->
   createMarketCards numberToString ms = Throw TypeError).
Proof.
split; [ apply createMarketCards_renderable | ].
induction ms as [ | m ms IH]; intro H; [ inversion H | ].
cbn [createMarketCards].
destruct (renderable_dec m) as [Hm | Hm].
- destruct (createMarketCard_renderable numberToString m Hm) as (card & Hc & _).
  rewrite Hc. cbn [bind]. rewrite IH; [ reflexivity | ].
  inversion H as [ ? ? Hx | ? ? Hx ]; subst; [ contradiction | exact Hx ].
- now rewrite createMarketCard_not_renderable.
Qed.

Lemma createMarketCards_all_or_nothing_witness :
  (exists cards,
     createMarketCards (fun _ => "") [ScorerProps.cityTitle; ScorerProps.fedTitle] = Ok cards /\
     List.length cards = 2%nat) /\
  createMarketCards (fun _ => "")
    [ScorerProps.cityTitle; ScorerProps.untitledMarket (Number 500)] = Throw TypeError.
Proof.
split.
- destruct (proj1 (createMarketCards_all_or_nothing (fun _ => "")
                     [ScorerProps.cityTitle; ScorerProps.fedTitle])) as (cards & Hc & Hl & _).
  + repeat constructor; try discriminate; cbn; lia.
  + exists cards. split; [ exact Hc | exact Hl ].
- apply (proj2 (createMarketCards_all_or_nothing (fun _ => "")
                  [ScorerProps.cityTitle; ScorerProps.untitledMarket (Number 500)])).
  apply Exists_cons_tl, Exists_cons_hd. intros [Ht _]. now apply Ht.
Defined.

(** *** The title inside the click handler *)

Definition quote : ascii := "039"%char.
Definition backslash : ascii := "092"%char.

(** [title.replace(/'/g, "\\'")]: a backslash goes before every quote. *)
Fixpoint escapeQuotes (s : string) : string :=
match s with
| EmptyString => EmptyString
| String c s' =>
    if Ascii.eqb c quote then String backslash (String quote (escapeQuotes s'))
    else String c (escapeQuotes s')
end.

(** The [onclick] attribute of a card:
    [analyzeSpecificMarket('${market.id}', '${market.title.replace(...)}')]. *)
Definition onclick (market : Market) : result string :=
match title market with
| Some t =>
    Ok ("analyzeSpecificMarket('" ++ id market ++ "', '" ++ escapeQuotes t ++ "')")
| None => Throw TypeError
end.

(** No quote of [s] stands without a backslash before it; [escaped] says that
    the character before [s] is a backslash. *)
Fixpoint quotesGuarded (escaped : bool) (s : string) : bool :=
match s with
| EmptyString => true
| String c s' =>
    (negb (Ascii.eqb c quote) || escaped) && quotesGuarded (Ascii.eqb c backslash) s'
end.

Fixpoint countQuotes (s : string) : nat :=
match s with
| EmptyString => O
| String c s' => (if Ascii.eqb c quote then 1 else 0) + countQuotes s'
end.

Lemma escapeQuotes_guarded_any (s : string) (escaped : bool) :
  quotesGuarded escaped (escapeQuotes s) = true.
Proof.
revert escaped. induction s as [ | c s IH]; intro escaped; [ reflexivity | ].
cbn [escapeQuotes]. destruct (Ascii.eqb c quote) eqn:E; cbn [quotesGuarded].
- change (Ascii.eqb backslash quote) with false.
  change (Ascii.eqb backslash backslash) with true.
  change (Ascii.eqb quote quote) with true. cbn. apply IH.
- rewrite E. cbn. apply IH.
Qed.

(** In the escaped title every quote has a backslash before it; a title
    without quotes is left as it is; and the escaped title is longer than the
    title by the number of its quotes. *)
Theorem escapeQuotes_guards_every_quote (t : string) :
  quotesGuarded false (escapeQuotes t) = true /\
  (countQuotes t = 0%nat -> escapeQuotes t = t) /\
  String.length (escapeQuotes t) = (String.length t + countQuotes t)%nat.
Proof.
split; [ apply escapeQuotes_guarded_any | ]. split.
- induction t as [ | c t IH]; [ reflexivity | ].
  cbn [countQuotes escapeQuotes]. destruct (Ascii.eqb c quote); [ discriminate | ].
  intro H. now rewrite IH.
- induction t as [ | c t IH]; [ reflexivity | ].
  cbn [countQuotes escapeQuotes]. destruct (Ascii.eqb c quote); cbn [String.length];
    rewrite IH; lia.
Qed.

End CardsMore.

(** ** More about the key proxy *)
Module KeyProxyMore.
Import KeyProxy.

(** The handler never gives the secret away on another method than GET, and
    never answers with an empty key: a body with [apiKey] is sent only for a
    GET request, with status 200, and holds the configured, non-empty secret. *)
Theorem apiKey_only_for_configured_get (env : option string) (req : Request) (key : string) :
  json (handler env req) = ApiKeyBody key ->
  method req = "GET" /\ env = Some key /\ key <> "" /\ status (handler env req) = 200%Z.
Proof.
unfold handler. destruct (String.eqb_spec (method req) "GET") as [E | E]; cbn [negb].
- destruct env as [[ | c k] | ]; cbn [notConfigured json status]; try discriminate.
  intro H. injection H as <-. repeat split; [ exact E | discriminate ].
- cbn [json]. discriminate.
Qed.

Lemma apiKey_only_for_configured_get_witness :
  json (handler (Some "sk-or-v1-test") {| method := "GET" |}) = ApiKeyBody "sk-or-v1-test" /\
  method {| method := "GET" |} = "GET" /\ Some "sk-or-v1-test" = Some "sk-or-v1-test" /\
  "sk-or-v1-test" <> "" /\
  status (handler (Some "sk-or-v1-test") {| method := "GET" |}) = 200%Z.
Proof.
split; [ reflexivity | ].
apply (apiKey_only_for_configured_get (Some "sk-or-v1-test") {| method := "GET" |}).
reflexivity.
Defined.

End KeyProxyMore.

(** ** More about the conversation controller *)
Module ControllerMore.
Import JS Formatter Controller.

(** *** When a send is dropped *)

Lemma length_grows {A : Type} (l l' : list A) : l' <> [] -> (l ++ l')%list <> l.
Proof.
intros Hne H. apply (f_equal (@List.length A)) in H. rewrite length_app in H.
destruct l'; [ congruence | cbn in H; lia ].
Qed.

(** [sendMessage] leaves the page exactly as it is (turns, message box, busy
    flag, calls in flight) in three cases and no other: a request is in
    flight, the message is blank, or the snapshot is not loaded. *)
Theorem sendMessage_dropped_iff (st : State) :
  sendMessage st = st <->
  isLoading st = true \/ trim (messageInput st) = "" \/ polymarketData st = None.
Proof.
unfold sendMessage. destruct (isLoading st) eqn:El; [ split; auto | ].
destruct (String.eqb_spec (trim (messageInput st)) "") as [E | E]; [ split; auto | ].
destruct (polymarketData st) as [data | ] eqn:Ed; [ | split; auto ].
split.
- intro H. exfalso.
  apply (f_equal chatHistory) in H.
  destruct (Scorer.findRelevantMarkets data _); cbn in H.
  + revert H. apply length_grows. discriminate.
  + rewrite <- app_assoc in H. revert H. apply length_grows. discriminate.
- intros [H | [H | H]]; congruence.
Qed.

(** *** The snapshot is read-only *)

Lemma step_keeps_snapshot (numberToString : float -> string) (st : State) (ev : Event) :
  polymarketData (step numberToString st ev) = polymarketData st.
Proof.
destruct ev as [text | | question | marketId marketTitle | k reply]; cbn [step].
- reflexivity.
- unfold sendMessage. destruct (isLoading st); [ reflexivity | ].
  destruct (String.eqb _ ""); [ reflexivity | ].
  destruct (polymarketData st) as [data | ] eqn:E; [ | exact E ].
  destruct (Scorer.findRelevantMarkets data _); cbn; exact E.
- unfold askQuestion, sendMessage. cbn [isLoading withInput messageInput polymarketData].
  destruct (isLoading st); [ reflexivity | ].
  destruct (String.eqb _ ""); [ reflexivity | ].
  destruct (polymarketData st) as [data | ] eqn:E; [ | cbn; exact E ].
  destruct (Scorer.findRelevantMarkets data _); cbn; exact E.
- unfold analyzeSpecificMarket.
  destruct (polymarketData st) as [data | ] eqn:E; [ | exact E ].
  destruct (markets data) as [ms | ]; [ | exact E ].
  destruct (find _ ms); [ | exact E ]. cbn. exact E.
- destruct (nth_error (pending st) k) as [[relevantMarkets | market] | ]; [ | | reflexivity ].
  + unfold sendSettled, sendFailed. destruct reply as [aiResponse | ]; [ | reflexivity ].
    destruct (formatResponseWithMarkets _ _ _); reflexivity.
  + unfold analysisSettled. destruct reply as [aiResponse | ]; [ | reflexivity ].
    destruct (createMarketCard _ _); reflexivity.
Qed.

(** The page whose snapshot failed to load. *)
Definition unloaded : State :=
{| polymarketData := None; chatHistory := []; isLoading := false;
   messageInput := ""; pending := [] |}.

(** No event changes the snapshot; so on a page whose snapshot failed to load
    nothing is ever recorded and no model call is ever made, whatever the
    user types, sends or clicks: the load is not retried. *)
Theorem snapshot_is_never_reloaded (numberToString : float -> string) (st : State)
  (evs : list Event) :
  polymarketData (run numberToString st evs) = polymarketData st /\
  chatHistory (run numberToString unloaded evs) = [] /\
  pending (run numberToString unloaded evs) = [] /\
  isLoading (run numberToString unloaded evs) = false.
Proof.
split.
- unfold run. revert st. induction evs as [ | ev evs IH]; intro st; [ reflexivity | ].
  cbn [fold_left]. rewrite IH. apply step_keeps_snapshot.
- assert (H : forall st0, polymarketData st0 = None -> chatHistory st0 = [] ->
                          pending st0 = [] -> isLoading st0 = false ->
                chatHistory (run numberToString st0 evs) = [] /\
                pending (run numberToString st0 evs) = [] /\
                isLoading (run numberToString st0 evs) = false).
  { unfold run. induction evs as [ | ev evs IH]; intros st0 Hd Hh Hp Hl; [ auto | ].
    cbn [fold_left].
    assert (Hs : chatHistory (step numberToString st0 ev) = [] /\
                 pending (step numberToString st0 ev) = [] /\
                 isLoading (step numberToString st0 ev) = false).
    { destruct ev as [text | | question | marketId marketTitle | k reply]; cbn [step].
      - cbn. auto.
      - unfold sendMessage. rewrite Hl, Hd. destruct (String.eqb _ ""); auto.
      - unfold askQuestion, sendMessage.
        cbn [isLoading withInput messageInput polymarketData]. rewrite Hl, Hd.
        destruct (String.eqb _ ""); cbn; auto.
      - unfold analyzeSpecificMarket. rewrite Hd. auto.
      - rewrite Hp. destruct k; cbn; auto. }
    destruct Hs as (Hh' & Hp' & Hl').
    apply IH; auto. rewrite step_keeps_snapshot. exact Hd. }
  apply H; reflexivity.
Qed.

(** *** Every question gets one reply *)

Definition isFrom (s : Sender) (t : Turn) : bool :=
match s, sender t with
| user, user | bot, bot => true
| _, _ => false
end.

(** The number of turns of a sender in the history. *)
Definition turnsOf (s : Sender) (st : State) : nat :=
List.length (filter (isFrom s) (chatHistory st)).

(** Every recorded question is answered or still awaits its model call. *)
Definition answeredOrPending (st : State) : Prop :=
turnsOf user st = (turnsOf bot st + List.length (pending st))%nat.

Lemma removeNth_length {A : Type} (k : nat) (l : list A) (x : A) :
  nth_error l k = Some x -> S (List.length (removeNth k l)) = List.length l.
Proof.
revert k. induction l as [ | y l IH]; intros [ | k] H; cbn in H; try discriminate.
- reflexivity.
- cbn [removeNth List.length]. now rewrite (IH k H).
Qed.

Lemma answeredOrPending_step (numberToString : float -> string) (st : State) (ev : Event) :
  answeredOrPending st -> answeredOrPending (step numberToString st ev).
Proof.
unfold answeredOrPending, turnsOf. intro H.
assert (Hsend : forall st0,
          List.length (filter (isFrom user) (chatHistory st0))
          = (List.length (filter (isFrom bot) (chatHistory st0)) + List.length (pending st0))%nat ->
          List.length (filter (isFrom user) (chatHistory (sendMessage st0)))
          = (List.length (filter (isFrom bot) (chatHistory (sendMessage st0)))
             + List.length (pending (sendMessage st0)))%nat).
{ intros st0 H0. unfold sendMessage. destruct (isLoading st0); [ exact H0 | ].
  destruct (String.eqb _ ""); [ exact H0 | ].
  destruct (polymarketData st0) as [data | ]; [ | exact H0 ].
  destruct (Scorer.findRelevantMarkets data _); cbn;
    rewrite ?filter_app, ?length_app; cbn; lia. }
destruct ev as [text | | question | marketId marketTitle | k reply]; cbn [step].
- exact H.
- now apply Hsend.
- unfold askQuestion. now apply Hsend.
- unfold analyzeSpecificMarket.
  destruct (polymarketData st) as [data | ]; [ | exact H ].
  destruct (markets data) as [ms | ]; [ | exact H ].
  destruct (find _ ms); [ | exact H ].
  cbn. rewrite !filter_app, !length_app. cbn. lia.
- destruct (nth_error (pending st) k) as [[relevantMarkets | market] | ] eqn:E;
    [ | | exact H ]; pose proof (removeNth_length k (pending st) _ E) as Hk.
  + unfold sendSettled, sendFailed. destruct reply as [aiResponse | ].
    * destruct (formatResponseWithMarkets _ _ _); cbn;
        rewrite !filter_app, !length_app; cbn; lia.
    * cbn. rewrite !filter_app, !length_app. cbn. lia.
  + unfold analysisSettled. destruct reply as [aiResponse | ].
    * destruct (createMarketCard _ _); cbn;
        rewrite !filter_app, !length_app; cbn; lia.
    * cbn. rewrite !filter_app, !length_app. cbn. lia.
Qed.

(** From the loaded idle page, whatever happens, every question recorded in
    the history (a message sent or a drill-down) has exactly one reply turn or
    one model call still in flight; once no call is in flight, the history
    holds as many replies as questions and the busy flag is clear. *)
Theorem every_question_gets_one_reply (numberToString : float -> string) (ms : list Market)
  (evs : list Event) :
  answeredOrPending (run numberToString (idle ms) evs) /\
  (pending (run numberToString (idle ms) evs) = [] ->
   turnsOf user (run numberToString (idle ms) evs)
   = turnsOf bot (run numberToString (idle ms) evs) /\
   isLoading (run numberToString (idle ms) evs) = false).
Proof.
assert (H : forall st, answeredOrPending st -> singleFlight st ->
            answeredOrPending (run numberToString st evs) /\
            singleFlight (run numberToString st evs)).
{ unfold run. induction evs as [ | ev evs IH]; intros st Ha Hs; [ auto | ].
  cbn [fold_left]. apply IH;
    [ now apply answeredOrPending_step | now apply singleFlight_step ]. }
destruct (H (idle ms) eq_refl eq_refl) as [Ha Hs].
split; [ exact Ha | ]. intro Hp.
unfold answeredOrPending in Ha. unfold singleFlight, sendsInFlight in Hs.
rewrite Hp in Ha, Hs. cbn in Ha, Hs. split; [ lia | ].
destruct (isLoading _); [ discriminate | reflexivity ].
Qed.

(** *** The drill-down *)

Lemma find_first_by_id (marketId : string) (before after : list Market) (m : Market) :
  Forall (fun x => id x <> marketId) before -> id m = marketId ->
  find (fun x => String.eqb (id x) marketId) (before ++ m :: after) = Some m.
Proof.
intros Hb Hm. induction Hb as [ | x before Hx _ IH]; cbn [app find].
- rewrite Hm, String.eqb_refl. reflexivity.
- apply String.eqb_neq in Hx. rewrite Hx. exact IH.
Qed.

Lemma find_none_by_id (marketId : string) (ms : list Market) :
  Forall (fun x => id x <> marketId) ms ->
  find (fun x => String.eqb (id x) marketId) ms = None.
Proof.
induction 1 as [ | x ms Hx _ IH]; cbn [find]; [ reflexivity | ].
apply String.eqb_neq in Hx. now rewrite Hx.
Qed.

(** A drill-down on an id that no market of the snapshot carries does
    nothing.  Otherwise the first market with that id is analysed, whatever
    the busy flag says: the question recorded shows the title handed over by
    the card, one model call is added, and nothing else changes. *)
Theorem analyzeSpecificMarket_first_by_id (st : State) (data : Snapshot) (ms : list Market)
  (marketId marketTitle : string) :
  polymarketData st = Some data -> markets data = Some ms ->
  (Forall (fun x => id x <> marketId) ms ->
   analyzeSpecificMarket marketId marketTitle st = st) /\
  (forall before m after,
     ms = (before ++ m :: after)%list ->
     Forall (fun x => id x <> marketId) before -> id m = marketId ->
     chatHistory (analyzeSpecificMarket marketId marketTitle st)
     = (chatHistory st
        ++ [ {| sender := user; content := Text ("Tell me more about: " ++ marketTitle) |} ])%list /\
     pending (analyzeSpecificMarket marketId marketTitle st)
     = (pending st ++ [AwaitDetailedAnalysis m])%list /\
     isLoading (analyzeSpecificMarket marketId marketTitle st) = isLoading st /\
     messageInput (analyzeSpecificMarket marketId marketTitle st) = messageInput st).
Proof.
intros Hd Hm. split.
- intro H. unfold analyzeSpecificMarket. now rewrite Hd, Hm, find_none_by_id.
- intros before m after -> Hb Hid. unfold analyzeSpecificMarket.
  rewrite Hd, Hm, (find_first_by_id marketId before after m Hb Hid).
  repeat split.
Qed.

Lemma analyzeSpecificMarket_first_by_id_witness :
  polymarketData (idle [ScorerProps.snowTwoMillion; ScorerProps.fogHalfMillion])
  = Some (ScorerProps.snapshotOf [ScorerProps.snowTwoMillion; ScorerProps.fogHalfMillion]) /\
  analyzeSpecificMarket "Rain in Paris" "Rain in Paris"
    (idle [ScorerProps.snowTwoMillion; ScorerProps.fogHalfMillion])
  = idle [ScorerProps.snowTwoMillion; ScorerProps.fogHalfMillion] /\
  pending (analyzeSpecificMarket "Fog in London" "Fog in London"
             (idle [ScorerProps.snowTwoMillion; ScorerProps.fogHalfMillion]))
  = [AwaitDetailedAnalysis ScorerProps.fogHalfMillion].
Proof.
pose proof (analyzeSpecificMarket_first_by_id
              (idle [ScorerProps.snowTwoMillion; ScorerProps.fogHalfMillion])
              (ScorerProps.snapshotOf [ScorerProps.snowTwoMillion; ScorerProps.fogHalfMillion])
              [ScorerProps.snowTwoMillion; ScorerProps.fogHalfMillion]) as H.
split; [ reflexivity | split ].
- apply (proj1 (H "Rain in Paris" "Rain in Paris" eq_refl eq_refl)).
  repeat constructor; discriminate.
- apply (proj2 (H "Fog in London" "Fog in London" eq_refl eq_refl)
           [ScorerProps.snowTwoMillion] ScorerProps.fogHalfMillion []); try reflexivity.
  repeat constructor; discriminate.
Defined.

(** When the model call of a drill-down fails, or its market has no card to
    render, exactly one turn with the fixed text of the drill-down is
    appended; the call is no longer in flight, and the busy flag and the
    message box are left as they are. *)
Theorem analysis_failure_reports_once (numberToString : float -> string) (st : State)
  (k : nat) (market : Market) (reply : option string) :
  nth_error (pending st) k = Some (AwaitDetailedAnalysis market) ->
  reply = None \/ ~ CardsMore.renderable market ->
  chatHistory (step numberToString st (Settled k reply))
  = (chatHistory st ++ [ {| sender := bot; content := Text detailErrorText |} ])%list /\
  pending (step numberToString st (Settled k reply)) = removeNth k (pending st) /\
  isLoading (step numberToString st (Settled k reply)) = isLoading st /\
  messageInput (step numberToString st (Settled k reply)) = messageInput st.
Proof.
intros Hk Hfail. cbn [step]. rewrite Hk. unfold analysisSettled.
destruct reply as [aiResponse | ]; [ | repeat split ].
destruct Hfail as [Hfail | Hfail]; [ discriminate | ].
rewrite (CardsMore.createMarketCard_not_renderable numberToString market Hfail).
repeat split.
Qed.

Lemma analysis_failure_reports_once_witness :
  chatHistory (step (fun _ => "")
                 (analyzeSpecificMarket "Fog in London" "Fog in London"
                    (idle [ScorerProps.snowTwoMillion; ScorerProps.fogHalfMillion]))
                 (Settled 0 None))
  = [ {| sender := user; content := Text "Tell me more about: Fog in London" |};
      {| sender := bot; content := Text detailErrorText |} ].
Proof.
destruct (analysis_failure_reports_once (fun _ => "")
            (analyzeSpecificMarket "Fog in London" "Fog in London"
               (idle [ScorerProps.snowTwoMillion; ScorerProps.fogHalfMillion]))
            0 ScorerProps.fogHalfMillion None eq_refl (or_introl eq_refl)) as (Hh & _).
rewrite Hh. reflexivity.
Defined.

(** *** A question and its answer *)

(** A market the scorer can score and the formatter can render. *)
Definition wellFormed (m : Market) : Prop :=
ScorerProps.textual m /\ CardsMore.renderable m.

Lemma nth_error_last {A : Type} (l : list A) (x : A) :
  nth_error (l ++ [x]) (List.length l) = Some x.
Proof. rewrite nth_error_app2 by lia. now rewrite Nat.sub_diag. Qed.

Lemma removeNth_last {A : Type} (l : list A) (x : A) :
  removeNth (List.length l) (l ++ [x]) = l.
Proof. induction l as [ | y l IH]; cbn; [ reflexivity | now rewrite IH ]. Qed.

Lemma Forall2_members {A : Type} (ms res : list A) (positions : list nat) :
  Forall2 (fun i m => nth_error ms i = Some m) positions res ->
  forall m, In m res -> In m ms.
Proof.
induction 1 as [ | i x positions res Hi _ IH]; intros m Hm; [ contradiction | ].
destruct Hm as [<- | Hm]; [ now apply nth_error_In with i | now apply IH ].
Qed.

(** On a page that is not busy and whose markets all carry a title, a
    description and two outcomes, a non-blank message is always accepted and
    always answered: the message box is cleared, the busy flag is set and one
    model call started with the markets the scorer selects; once the call
    yields its text, the history has grown by the trimmed question and by one
    answer carrying that text and one card per selected market (six at
    most), and the busy flag is clear again. *)
Theorem answered_question_shows_cards (numberToString : float -> string) (st : State)
  (data : Snapshot) (aiResponse : string) :
  isLoading st = false -> polymarketData st = Some data ->
  Forall wellFormed (Scorer.marketList data) -> trim (messageInput st) <> "" ->
  exists relevantMarkets cards,
    Scorer.findRelevantMarkets data (trim (messageInput st)) = Ok relevantMarkets /\
    createMarketCards numberToString relevantMarkets = Ok cards /\
    List.length cards = List.length relevantMarkets /\
    (List.length cards <= 6)%nat /\
    pending (sendMessage st) = (pending st ++ [AwaitAIResponse relevantMarkets])%list /\
    isLoading (sendMessage st) = true /\
    messageInput (sendMessage st) = "" /\
    chatHistory (step numberToString (sendMessage st)
                      (Settled (List.length (pending st)) (Some aiResponse)))
    = (chatHistory st
       ++ [ {| sender := user; content := Text (trim (messageInput st)) |};
            {| sender := bot; content := AnswerWithCards aiResponse cards |} ])%list /\
    isLoading (step numberToString (sendMessage st)
                    (Settled (List.length (pending st)) (Some aiResponse))) = false /\
    pending (step numberToString (sendMessage st)
                  (Settled (List.length (pending st)) (Some aiResponse))) = pending st.
Proof.
intros Hl Hd Hw Hm.
assert (Ht : Forall ScorerProps.textual (Scorer.marketList data))
  by (apply Forall_impl with (2 := Hw); intros m [H _]; exact H).
assert (Hres : exists res, Scorer.findRelevantMarkets data (trim (messageInput st)) = Ok res).
{ rewrite ScorerProps.findRelevantMarkets_unfold
    by now apply ScorerProps.textual_scores.
  destruct (_ =? _)%nat; eauto. }
destruct Hres as (res & Hres).
destruct (ScorerMore.selected_from_snapshot data _ res Hres) as (Hlen & positions & _ & Hpos).
assert (Hr : Forall CardsMore.renderable res).
{ apply Forall_forall. intros m Hin.
  apply (Forall2_members _ _ _ Hpos) in Hin.
  apply (proj1 (Forall_forall _ _) Hw) in Hin. exact (proj2 Hin). }
destruct (CardsMore.createMarketCards_renderable numberToString res Hr)
  as (cards & Hcards & Hcl & _).
exists res, cards.
assert (Hsend : sendMessage st
                = withPending (pending st ++ [AwaitAIResponse res])
                    (withLoading true
                       (addMessage user (Text (trim (messageInput st))) (withInput "" st)))).
{ unfold sendMessage. rewrite Hl, Hd, Hres.
  destruct (String.eqb_spec (trim (messageInput st)) "") as [E | _]; [ contradiction | ].
  reflexivity. }
rewrite Hsend. cbn [step pending withPending].
rewrite nth_error_last, removeNth_last.
unfold sendSettled, formatResponseWithMarkets. rewrite Hcards. cbn.
rewrite <- app_assoc. cbn. repeat split; auto. lia.
Qed.

Lemma answered_question_shows_cards_witness :
  chatHistory (run (fun _ => "")
                 (idle [ScorerProps.cityTitle; ScorerProps.fedTitle])
                 [Typed " premier league odds "; Send; Settled 0 (Some "City lead.")])
  <> [] /\
  exists relevantMarkets cards,
    Scorer.findRelevantMarkets (ScorerProps.snapshotOf [ScorerProps.cityTitle; ScorerProps.fedTitle])
                               "premier league odds" = Ok relevantMarkets /\
    createMarketCards (fun _ => "") relevantMarkets = Ok cards /\
    List.length cards = 2%nat.
Proof.
split; [ vm_compute; discriminate | ].
destruct (answered_question_shows_cards (fun _ => "")
            (withInput " premier league odds "
               (idle [ScorerProps.cityTitle; ScorerProps.fedTitle]))
            (ScorerProps.snapshotOf [ScorerProps.cityTitle; ScorerProps.fedTitle])
            "City lead.")
  as (res & cards & Hres & Hcards & Hl & _).
- reflexivity.
- reflexivity.
- repeat constructor; try discriminate; cbn; lia.
- vm_compute. discriminate.
- exists res, cards. split; [ exact Hres | ]. split; [ exact Hcards | ].
  rewrite Hl.
  assert (E : Ok res = Ok [ScorerProps.cityTitle; ScorerProps.fedTitle])
    by (rewrite <- Hres; vm_compute; reflexivity).
  apply Ok_inj in E. now rewrite E.
Defined.

End ControllerMore.
